(** * robosuite user study: the teleoperation session loop and the PandaWrist
      manipulator model

    Shallow embedding of

    - [robosuite/demos/user_study.py]: the command line parser, the session
      loop over (task, robot) pairs, the per-trial control loop (device
      sample, arm switch on grasp, action padding, simulation step, contact
      scan, task feedback and logging) and its catch-all handler;
    - [robosuite/models/robots/manipulators/panda_wrist_robot.py]: the joint
      damping vector and the initial joint angles of [PandaWrist].

    The script is effectful: it mutates the [args] namespace and a few loop
    locals, calls the simulation, the device and the viewer, appends rows to
    a CSV file and may raise.  It is embedded in a state-and-exception monad
    over an explicit program state.  Every call into a collaborator that is
    not part of the script is recorded as an event; what such a call returns
    (and whether it raises) is read from a script of loop iterations. *)

From Stdlib Require Import ZArith QArith List String Ascii Bool Lia.
From stdpp Require Import base gmap strings list.

Local Open Scope string_scope.
Local Open Scope list_scope.
Local Open Scope Z_scope.

(** ** Python values held by the argparse namespace *)

Inductive PyVal : Type :=
| VNone
| VBool (b : bool)
| VStr (s : string)
| VFloat (q : Q).

(** [==] between the values the script compares (strings against string
    literals); [None == "bimanual"] is [False]. *)
Definition py_eq (a b : PyVal) : bool :=
  match a, b with
  | VNone, VNone => true
  | VBool x, VBool y => Bool.eqb x y
  | VStr x, VStr y => String.eqb x y
  | VFloat x, VFloat y => Qeq_bool x y
  | _, _ => false
  end.

(** Truth value of an object in an [if]. *)
Definition truthy (v : PyVal) : bool :=
  match v with
  | VNone => false
  | VBool b => b
  | VStr s => negb (String.eqb s "")
  | VFloat q => negb (Qeq_bool q 0)
  end.

(** Strict order on the numbers of the script ([last_grasp < 0 < grasp]).
    The floats of the script are only copied and compared with 0; they are
    taken as rationals. *)
Definition Qltb (x y : Q) : bool := negb (Qle_bool y x).

(** ** argparse: options, destinations, the parsed namespace *)

Module Argparse.

(** [str.lstrip("-")] *)
Fixpoint lstrip_dash (s : string) : string :=
  match s with
  | String c r => if Ascii.eqb c "-" then lstrip_dash r else s
  | EmptyString => EmptyString
  end.

(** [str.replace("-", "_")] *)
Fixpoint replace_dash (s : string) : string :=
  match s with
  | String c r => String (if Ascii.eqb c "-" then "_"%char else c) (replace_dash r)
  | EmptyString => EmptyString
  end.

(** The attribute under which argparse stores an optional argument that
    is declared without [dest]: the option string without its leading
    dashes, the remaining dashes replaced by underscores. *)
Definition dest_of_option (opt : string) : string :=
  replace_dash (lstrip_dash opt).

Record Argument : Type := {
  option_string : string;
  store_true : bool;                  (* action="store_true" *)
  default : PyVal
}.

(** The [add_argument] calls of lines 181-190, in order.  [store_true]
    options default to [False]. *)
Definition parser : list Argument := [
  {| option_string := "--config"; store_true := false;
     default := VStr "single-arm-opposed" |};
  {| option_string := "--arm"; store_true := false; default := VStr "right" |};
  {| option_string := "--switch-on-grasp"; store_true := true;
     default := VBool false |};
  {| option_string := "--toggle-  camera-on-grasp"; store_true := true;
     default := VBool false |};
  {| option_string := "--device"; store_true := false; default := VStr "oculus" |};
  {| option_string := "--pos-sensitivity"; store_true := false; default := VFloat 1 |};
  {| option_string := "--rot-sensitivity"; store_true := false; default := VFloat 1 |};
  {| option_string := "--directory"; store_true := false;
     default := VStr "/home/rthom/Documents/Research/TRI/bdml_mujoco/robosuite/data/" |}
].

(** The declared option that an option string typed on the command line
    stands for: itself if it is declared, else the only declared option
    that it abbreviates (a prefix that starts with two dashes).  A string
    that is no option or abbreviates several stands for none; argparse ends
    the process on such a command line, before the script does
    anything. *)
Definition resolve (typed : string) : option string :=
  let declared := map option_string parser in
  if existsb (String.eqb typed) declared then Some typed
  else if String.prefix "--" typed then
    match List.filter (String.prefix typed) declared with
    | [o] => Some o
    | _ => None
    end
  else None.

(** Value given on the command line for a declared option, if any.  The
    command line is the list of its options in order, each with the value
    that follows it, already converted by the [type] of the argument (for a
    [store_true] option the value is not looked at).  When an option occurs
    more than once the last occurrence counts. *)
Fixpoint given (argv : list (string * PyVal)) (opt : string) : option PyVal :=
  match argv with
  | [] => None
  | (typed, v) :: r =>
      match given r opt with
      | Some w => Some w
      | None =>
          match resolve typed with
          | Some o => if String.eqb o opt then Some v else None
          | None => None
          end
      end
  end.

(** The command lines that argparse accepts: every option string stands
    for a declared option. *)
Definition accepted (argv : list (string * PyVal)) : bool :=
  forallb (fun tv => match resolve (fst tv) with Some _ => true | None => false end)
    argv.

(** The value stored for an argument. *)
Definition stored (argv : list (string * PyVal)) (a : Argument) : PyVal :=
  match given argv (option_string a) with
  | Some v => if store_true a then VBool true else v
  | None => default a
  end.

(** [parser.parse_args()]: every declared argument becomes an attribute
    named by its destination, holding the command-line value or the
    default. *)
Definition parse_args (argv : list (string * PyVal)) : gmap string PyVal :=
  fold_right
    (fun a ns => <[dest_of_option (option_string a) := stored argv a]> ns)
    ∅ parser.

End Argparse.

(** ** Data of the control loop *)

(** One entry of [env.sim.data.contact]. *)
Record Contact : Type := {
  geom1 : Z;
  geom2 : Z;
  pos : list Q
}.

(** What [env._check_success()] returns.  Booleans of the success level are
    the integers 0 and 1; [ConstrainedReorient] uses the levels 0, 1, 2.
    [disturbance] is only part of the tuple of [Bookshelf]. *)
Record CheckResult : Type := {
  trial_ended : bool;
  success : Z;
  success_time : Q;
  disturbance : string;
  trial : Z
}.

(** One row written by [save_data]. *)
Record Row : Type := {
  r_subject_name : string;
  r_task : string;
  r_robot : string;
  r_trial : Z;
  r_success : Z;
  r_success_time : Q;
  r_disturbance : string
}.

Inductive MarkerKind : Type :=
| ContactSphere (p : list Q)      (* line 370 *)
| GoalArrowGreen                  (* line 377 *)
| GoalArrowOrange                 (* line 384 *)
| GoalArrowRed                    (* line 386 *)
| SuccessLabel                    (* lines 392, 402 *)
| TrainArrow.                     (* line 412 *)

(** Calls into collaborators, in the order the script makes them. *)
Inductive Event : Type :=
| Prompt (text : string)
| MakeEnv (task robot : string)
| DeviceInit (kind : string) (use_robotiq drawer : option bool)
| AddCallback (kind : string)         (* env.viewer.add_..._callback *)
| WriteHeader                         (* the column labels of the CSV file *)
| EnvReset
| Render
| StartControl
| SetCamera (cam : Z)
| PrintUnsupportedArm (arm : PyVal)
| Step (action : list Q)
| AddMarker (m : MarkerKind)
| CheckSuccess
| SaveData (row : Row)
| Sleep (seconds : Z)
| DeviceResetInternal
| EnvClose.

(** The simulation built by [suite.make] for one (task, robot) pair, as far
    as the loop reads it. *)
Record SimEnv : Type := {
  action_dim : nat;                   (* env.action_dim *)
  robots : nat;                       (* len(env.robots) *)
  camera_names : list string;         (* env.sim.model.camera_names *)
  geom_id2name : Z -> option string   (* env.sim.model.geom_id2name *)
}.

(** One iteration of the inner [while True]: what the collaborators answer
    during it.  [t_fault] is the source line of the call that raises in this
    iteration, if one does; the calls of the trial set-up (lines 302-313)
    that precede the first iteration of a trial count with it. *)
Record Tick : Type := {
  t_fault : option nat;
  t_input : option (list Q * Q);      (* input2action: (action, grasp) or (None, None) *)
  t_contacts : list Contact;          (* env.sim.data.contact[0 : ncon] *)
  t_check : CheckResult               (* env._check_success() *)
}.

(** ** Program state, exceptions, the monad *)

Record State : Type := {
  args : gmap string PyVal;           (* the argparse namespace *)
  cam_id : Z;
  num_cam : Z;
  last_grasp : Q;
  log : list Event;                   (* calls made so far, oldest first *)
  csv : list Row                      (* the rows that [save_data] appended to the
                                         subject's CSV file *)
}.

Inductive Exn : Type :=
| AttributeError (name : string)
| IndexError
| ZeroDivisionError
| KeyError (key : string)
| SystemExit                          (* [sys.exit()] *)
| Raised (line : nat).                (* raised by the collaborator called on that line *)

Definition M (A : Type) : Type := State -> State * (Exn + A).

Definition ret {A} (a : A) : M A := fun st => (st, inr a).

Definition raise {A} (e : Exn) : M A := fun st => (st, inl e).

Definition bind {A B} (m : M A) (k : A -> M B) : M B := fun st =>
  match m st with
  | (st', inr a) => k a st'
  | (st', inl e) => (st', inl e)
  end.

Declare Scope prog_scope.
Delimit Scope prog_scope with prog.
Notation "x <- m ;; k" := (bind m (fun x => k))
  (at level 100, m at next level, right associativity) : prog_scope.
Notation "m ;; k" := (bind m (fun _ => k))
  (at level 100, right associativity) : prog_scope.
Local Open Scope prog_scope.

Definition gets {A} (f : State -> A) : M A := fun st => (st, inr (f st)).

Definition set_args (a : gmap string PyVal) : M unit := fun st =>
  ({| args := a; cam_id := cam_id st; num_cam := num_cam st;
      last_grasp := last_grasp st; log := log st; csv := csv st |}, inr tt).

Definition set_cam_id (c : Z) : M unit := fun st =>
  ({| args := args st; cam_id := c; num_cam := num_cam st;
      last_grasp := last_grasp st; log := log st; csv := csv st |}, inr tt).

Definition set_num_cam (n : Z) : M unit := fun st =>
  ({| args := args st; cam_id := cam_id st; num_cam := n;
      last_grasp := last_grasp st; log := log st; csv := csv st |}, inr tt).

Definition set_last_grasp (g : Q) : M unit := fun st =>
  ({| args := args st; cam_id := cam_id st; num_cam := num_cam st;
      last_grasp := g; log := log st; csv := csv st |}, inr tt).

Definition emit (ev : Event) : M unit := fun st =>
  ({| args := args st; cam_id := cam_id st; num_cam := num_cam st;
      last_grasp := last_grasp st; log := log st ++ [ev]; csv := csv st |}, inr tt).

Definition append_csv (r : Row) : M unit := fun st =>
  ({| args := args st; cam_id := cam_id st; num_cam := num_cam st;
      last_grasp := last_grasp st; log := log st; csv := csv st ++ [r] |}, inr tt).

(** Attribute access on [args]. *)
Definition getattr (name : string) : M PyVal := fun st =>
  match args st !! name with
  | Some v => (st, inr v)
  | None => (st, inl (AttributeError name))
  end.

Definition setattr (name : string) (v : PyVal) : M unit :=
  a <- gets args;; set_args (<[name := v]> a).

(** A call into a collaborator on source line [line]: it raises if the
    script of this iteration says so, otherwise it happens and returns. *)
Definition call (fault : option nat) (line : nat) (ev : Event) : M unit :=
  if bool_decide (fault = Some line) then raise (Raised line) else emit ev.

(** ** The control loop of [user_study.py] *)

Inductive Control : Type := Continue | Break.

(** [seq[i]] on a sequence of length [n]. *)
Definition index (n i : nat) : M nat :=
  if (i <? n)%nat then ret i else raise IndexError.

(** [a % b] on integers. *)
Definition py_mod (a b : Z) : M Z :=
  if (b =? 0)%Z then raise ZeroDivisionError else ret (a mod b).

(** Line 317: the robot handed to [input2action]. *)
Definition active_robot (env : SimEnv) : M nat :=
  config <- getattr "config";;
  if py_eq config (VStr "bimanual") then index (robots env) 0
  else
    arm <- getattr "arm";;
    index (robots env) (if py_eq arm (VStr "left") then 1 else 0)%nat.

(** Lines 320-322: the device sample. *)
Definition input2action (t : Tick) : M (option (list Q * Q)) :=
  getattr "arm";;
  getattr "config";;
  if bool_decide (t_fault t = Some 320%nat) then raise (Raised 320)
  else ret (t_input t).

(** Lines 330-338: arm switch and camera toggle on a grasp press, then the
    update of [last_grasp]. *)
Definition grasp_edge (fault : option nat) (grasp : Q) : M unit :=
  lg <- gets last_grasp;;
  (if Qltb lg 0 && Qltb 0 grasp then
     sw <- getattr "switch_on_grasp";;
     (if truthy sw then
        arm <- getattr "arm";;
        setattr "arm" (VStr (if py_eq arm (VStr "right") then "left" else "right"))
      else ret tt);;
     tg <- getattr "toggle_camera_on_grasp";;
     if truthy tg then
       c <- gets cam_id;;
       n <- gets num_cam;;
       c' <- py_mod (c + 1) n;;
       set_cam_id c';;
       call fault 335 (SetCamera c')
     else ret tt
   else ret tt);;
  set_last_grasp grasp.

(** Lines 341-358: fill or trim the device action to the action space of
    the environment.  [np.zeros(n)] is [repeat 0 n]; [action[: d]] keeps the
    first [d] elements. *)
Definition assemble (env : SimEnv) (action : list Q) : M (list Q) :=
  let rem_action_dim := Z.of_nat (action_dim env) - Z.of_nat (length action) in
  if 0 <? rem_action_dim then
    let rem_action := repeat 0%Q (Z.to_nat rem_action_dim) in
    arm <- getattr "arm";;
    if py_eq arm (VStr "right") then ret (action ++ rem_action)
    else if py_eq arm (VStr "left") then ret (rem_action ++ action)
    else (emit (PrintUnsupportedArm arm);; ret action)
  else if rem_action_dim <? 0 then ret (firstn (action_dim env) action)
  else ret action.

(** Lines 341-361: the assembled action is what [env.step] receives. *)
Definition assemble_and_step (fault : option nat) (env : SimEnv)
    (action : list Q) : M unit :=
  action' <- assemble env action;;
  call fault 361 (Step action').

(** Line 363. *)
Definition links2check : list string := [
  "robot0_g0_col"; "robot0_g1_col"; "robot0_g2_col"; "robot0_g3_col";
  "robot0_g4_col"; "robot0_g5_col"; "robot0_link7_collision";
  "robot0_link6_collision"; "gripper0_hand_collision"
].

(** [name in links]; [geom_id2name] gives [None] for a geometry without a
    name, which is in no list of strings. *)
Definition name_in (name : option string) (links : list string) : bool :=
  match name with
  | Some s => existsb (String.eqb s) links
  | None => false
  end.

(** Lines 366-368: [bool1 or bool2]. *)
Definition flagged (env : SimEnv) (links : list string) (con : Contact) : bool :=
  let n1 := geom_id2name env (geom1 con) in
  let n2 := geom_id2name env (geom2 con) in
  let bool1 := name_in n1 links && negb (name_in n2 links) in
  let bool2 := name_in n2 links && negb (name_in n1 links) in
  bool1 || bool2.

(** Lines 364-370: one contact marker per flagged contact. *)
Fixpoint safety_scan (fault : option nat) (env : SimEnv) (links : list string)
    (contacts : list Contact) : M unit :=
  match contacts with
  | [] => ret tt
  | con :: rest =>
      (if flagged env links con
       then call fault 370 (AddMarker (ContactSphere (pos con)))
       else ret tt);;
      safety_scan fault env links rest
  end.

Definition subject_name : string := "test_oculus".

(** Lines 125-129, called from [line]. *)
Definition save_data (fault : option nat) (line : nat) (task robot : string)
    (trial success : Z) (success_time : Q) (disturbance : string) : M unit :=
  let row := {| r_subject_name := subject_name; r_task := task; r_robot := robot;
                r_trial := trial; r_success := success;
                r_success_time := success_time; r_disturbance := disturbance |} in
  call fault line (SaveData row);;
  append_csv row.

(** Lines 373-412: the feedback of the task at hand. *)
Definition task_feedback (fault : option nat) (task robot : string)
    (chk : CheckResult) : M unit :=
  if String.eqb task "ConstrainedReorient" then
    call fault 374 CheckSuccess;;
    if trial_ended chk then
      (if success chk =? 2 then call fault 377 (AddMarker GoalArrowGreen) else ret tt);;
      save_data fault 378 task robot (trial chk) (success chk) (success_time chk) "";;
      call fault 379 Render;;
      call fault 380 (Sleep 3);;
      call fault 381 DeviceResetInternal
    else if success chk =? 1 then call fault 384 (AddMarker GoalArrowOrange)
    else call fault 386 (AddMarker GoalArrowRed)
  else if String.eqb task "Bookshelf" then
    call fault 389 CheckSuccess;;
    if trial_ended chk then
      (if negb (success chk =? 0) then call fault 392 (AddMarker SuccessLabel) else ret tt);;
      save_data fault 393 task robot (trial chk) (success chk) (success_time chk)
        (disturbance chk);;
      call fault 394 Render;;
      call fault 395 (Sleep 3);;
      call fault 396 DeviceResetInternal
    else ret tt
  else if String.eqb task "DrawerPick" then
    call fault 399 CheckSuccess;;
    if trial_ended chk then
      (if negb (success chk =? 0) then call fault 402 (AddMarker SuccessLabel) else ret tt);;
      save_data fault 403 task robot (trial chk) (success chk) (success_time chk) "";;
      call fault 404 Render;;
      call fault 405 (Sleep 3);;
      call fault 406 DeviceResetInternal
    else ret tt
  else if String.eqb task "Train" then
    call fault 412 (AddMarker TrainArrow)
  else ret tt.

(** Lines 316-425: one iteration of the inner loop. *)
Definition tick (task robot : string) (env : SimEnv) (t : Tick) : M Control :=
  active_robot env;;
  sample <- input2action t;;
  match sample with
  | None => ret Break
  | Some (action, grasp) =>
      grasp_edge (t_fault t) grasp;;
      assemble_and_step (t_fault t) env action;;
      safety_scan (t_fault t) env links2check (t_contacts t);;
      task_feedback (t_fault t) task robot (t_check t);;
      call (t_fault t) 425 Render;;
      ret Continue
  end.

(** Lines 301-313: the start of a trial. *)
Definition trial_setup (fault : option nat) (env : SimEnv) : M unit :=
  call fault 302 EnvReset;;
  set_cam_id 0;;
  set_num_cam (Z.of_nat (length (camera_names env)));;
  call fault 307 Render;;
  set_last_grasp 0;;
  call fault 313 StartControl.

(** Lines 300-425: the two nested [while True] loops, run over the
    iterations of [script].  [new_trial] tells whether the next iteration is
    the first of a trial (at the start, and after a [break] of the inner
    loop).  The loops have no exit of their own: they end by an exception,
    or the script ends while they are still running. *)
Fixpoint control_loop (task robot : string) (env : SimEnv) (new_trial : bool)
    (script : list Tick) : M unit :=
  match script with
  | [] => ret tt
  | t :: rest =>
      (if new_trial then trial_setup (t_fault t) env else ret tt);;
      c <- tick task robot env t;;
      control_loop task robot env
        (match c with Break => true | Continue => false end) rest
  end.

(** ** The acknowledgment prompt *)

(** What [pygame.event.get()] hands out, as far as lines 162-173 look at
    it: a window close, a key press, anything else. *)
Inductive PgEvent : Type :=
| PgQuit
| PgKeyDown (key : Z)
| PgOther.

(** [pygame.K_ESCAPE] *)
Definition K_ESCAPE : Z := 27.

Inductive PromptResult : Type :=
| Returned (user_input : Z)           (* line 176 reached *)
| Exited                              (* [sys.exit()] of line 165 or 169 *)
| Waiting.                            (* still in the [while] loop *)

(** Lines 162-173: the [for] loop over one batch of events.  [user_input]
    is [Some] exactly when [input_received] is set; the result [None] is
    [sys.exit()]. *)
Fixpoint handle_events (batch : list PgEvent) (user_input : option Z)
    : option (option Z) :=
  match batch with
  | [] => Some user_input
  | PgQuit :: _ => None
  | PgKeyDown key :: rest =>
      if key =? K_ESCAPE then None else handle_events rest (Some key)
  | PgOther :: rest => handle_events rest user_input
  end.

(** Lines 160-176: the [while not input_received] loop, run over the
    batches that successive [pygame.event.get()] calls return. *)
Fixpoint prompt_user_for_input (batches : list (list PgEvent)) : PromptResult :=
  match batches with
  | [] => Waiting
  | batch :: rest =>
      match handle_events batch None with
      | None => Exited
      | Some (Some key) => Returned key
      | Some None => prompt_user_for_input rest
      end
  end.

(** ** The session *)

Record PairPlan : Type := {
  pp_robot : string;
  pp_prompt : list (list PgEvent);    (* the events that the prompt of line 229 gets *)
  pp_setup_fault : option nat;        (* the line of 241-298 whose call raises *)
  pp_csv_exists : bool;               (* os.path.exists(file_path) of line 293 *)
  pp_env : SimEnv;                    (* what suite.make returns *)
  pp_ticks : list Tick;
  pp_close_raises : bool              (* env.close() of line 427 raises *)
}.

Record TaskPlan : Type := {
  tp_task : string;
  tp_prompt : list (list PgEvent);    (* the events that the prompt of line 220 gets *)
  tp_pairs : list PairPlan            (* the robots, in shuffled order *)
}.

Inductive PairStatus : Type :=
| Aborted (e : Exn)                   (* the handler ran, [continue] *)
| Running.                            (* the script ended inside the loop *)

Inductive SessionStatus : Type :=
| Finished                            (* every pair was gone through *)
| InPair (task robot : string)        (* still inside the loop of that pair *)
| AtPrompt.                           (* still waiting for a key at a prompt *)

(** Lines 299-428: the [try] around the control loop and its bare
    [except]. *)
Definition run_pair (task : string) (p : PairPlan) : M PairStatus := fun st =>
  match control_loop task (pp_robot p) (pp_env p) true (pp_ticks p) st with
  | (st', inl e) =>
      (call (if pp_close_raises p then Some 427%nat else None) 427 EnvClose;;
       ret (Aborted e)) st'
  | (st', inr _) => (st', inr Running)
  end.

(** Lines 201-205: [task_names[task]]. *)
Definition task_names (task : string) : option string :=
  if String.eqb task "ConstrainedReorient" then Some "place the toppled object upright"
  else if String.eqb task "Bookshelf" then Some "remove the green object from the cabinet"
  else if String.eqb task "DrawerPick" then Some "retrieve the green object from the box"
  else if String.eqb task "Train"
       then Some "gain familiarity with the teleoperation interface"
  else None.

(** A call of [prompt_user_for_input]: the text is shown, then the event
    loop runs on [batches].  It returns ([true]), ends the process with
    [sys.exit()], or is still waiting when the batches are used up
    ([false]). *)
Definition prompt (text : string) (batches : list (list PgEvent)) : M bool :=
  emit (Prompt text);;
  match prompt_user_for_input batches with
  | Returned _ => ret true
  | Exited => raise SystemExit
  | Waiting => ret false
  end.

(** A statement on source line [line] that calls nothing the log records
    (an import) but may raise. *)
Definition may_raise (fault : option nat) (line : nat) : M unit :=
  if bool_decide (fault = Some line) then raise (Raised line) else ret tt.

(** Lines 264-285: the device for [args.device] and its viewer callbacks.
    With any other value of [--device] no branch is taken and the name
    [device] stays unbound (or bound to the device of the pair before);
    [device.start_control()] of line 313 then raises inside the [try],
    which a script expresses by a fault on line 313. *)
Definition make_device (fault : option nat) (task robot : string) : M unit :=
  dev <- getattr "device";;
  let use_robotiq :=
    negb (String.eqb robot "PandaSSLIM" || String.eqb robot "PandaSSLIMOG") in
  let drawer :=
    match String.index 0 "DrawerPick" task with Some _ => true | None => false end in
  if py_eq dev (VStr "keyboard") then
    may_raise fault 266;;
    getattr "pos_sensitivity";;
    getattr "rot_sensitivity";;
    call fault 268 (DeviceInit "Keyboard" None None);;
    call fault 269 (AddCallback "keypress");;
    call fault 270 (AddCallback "keyup");;
    call fault 271 (AddCallback "keyrepeat")
  else if py_eq dev (VStr "spacemouse") then
    may_raise fault 273;;
    getattr "pos_sensitivity";;
    getattr "rot_sensitivity";;
    call fault 276 (DeviceInit "SpaceMouse" (Some use_robotiq) (Some drawer));;
    call fault 277 (AddCallback "keypress");;
    call fault 278 (AddCallback "keyrepeat")
  else if py_eq dev (VStr "oculus") then
    may_raise fault 280;;
    getattr "pos_sensitivity";;
    getattr "rot_sensitivity";;
    call fault 283 (DeviceInit "Oculus" (Some use_robotiq) (Some drawer));;
    call fault 284 (AddCallback "keypress");;
    call fault 285 (AddCallback "keyrepeat")
  else ret tt.

(** Lines 257-298: the data directory, the device, and the header of the
    CSV file if the file is not there yet. *)
Definition device_and_header (task : string) (p : PairPlan) : M unit :=
  getattr "directory";;
  make_device (pp_setup_fault p) task (pp_robot p);;
  if pp_csv_exists p then ret tt
  else call (pp_setup_fault p) 296 WriteHeader.

(** Lines 229-298: what precedes the [try] for one pair: the prompt, the
    new environment, the device and the header.  Nothing here is inside a
    [try]: an exception ends the process.  The result tells whether the
    prompt returned. *)
Definition pair_setup (task : string) (p : PairPlan) : M bool :=
  ok <- prompt "Press any key to begin the next scenerio." (pp_prompt p);;
  if ok then
    setattr "config" VNone;;
    call (pp_setup_fault p) 241 (MakeEnv task (pp_robot p));;
    device_and_header task p;;
    ret true
  else ret false.

(** Lines 227-428: the loop over the robots of one task. *)
Fixpoint robots_loop (task : string) (pairs : list PairPlan) : M SessionStatus :=
  match pairs with
  | [] => ret Finished
  | p :: rest =>
      ok <- pair_setup task p;;
      if ok then
        s <- run_pair task p;;
        match s with
        | Aborted _ => robots_loop task rest
        | Running => ret (InPair task (pp_robot p))
        end
      else ret AtPrompt
  end.

(** Lines 218-428: the loop over the tasks. *)
Fixpoint tasks_loop (plans : list TaskPlan) : M SessionStatus :=
  match plans with
  | [] => ret Finished
  | tp :: rest =>
      match task_names (tp_task tp) with
      | None => raise (KeyError (tp_task tp))
      | Some name =>
          ok <- prompt ("The next task is to " ++ name ++
                        ". Check out the task summary, then press any key to continue.")
                  (tp_prompt tp);;
          if ok then
            s <- robots_loop (tp_task tp) (tp_pairs tp);;
            match s with
            | Finished => tasks_loop rest
            | _ => ret s
            end
          else ret AtPrompt
      end
  end.

(** The state after [parse_args], before the first task. *)
Definition initial_state (argv : list (string * PyVal)) : State :=
  {| args := Argparse.parse_args argv; cam_id := 0; num_cam := 0;
     last_grasp := 0; log := []; csv := [] |}.

(** ** The PandaWrist manipulator model *)

(** Float expressions as [panda_wrist_robot.py] writes them. *)
Inductive FExpr : Type :=
| Num (q : Q)
| NpPi
| FNeg (a : FExpr)
| FSub (a b : FExpr)
| FDiv (a b : FExpr).

Module PandaWrist.

(** The values handed to [set_joint_attribute(attrib="damping", ...)]. *)
Definition damping : list Q :=
  [1#10; 1#10; 1#10; 1#10; 1#10; 1#100; 1#100; 1#100; 1#100]%Q.

Definition default_mount : string := "RethinkMount".

Definition default_gripper : string := "SSLIMHand".

Definition default_controller_config : string := "default_panda".

(** The array returned by the [init_qpos] property (the "SSLIM OG"
    line, the only one that is not commented out). *)
Definition init_qpos : list FExpr := [
  Num 0;
  FDiv (FNeg NpPi) (Num (25#10));
  Num 0;
  FSub (FDiv (FNeg NpPi) (Num (25#10))) (FDiv NpPi (Num (22#10)));
  Num 0;
  FSub NpPi (Num (4#10));
  FDiv NpPi (Num 4);
  FDiv NpPi (Num (25#10));
  Num 0
].

Definition top_offset : list Q := [0; 0; 1]%Q.

Definition _horizontal_radius : Q := (5#10)%Q.

Definition arm_type : string := "single".

End PandaWrist.

(** A robot profile as the control loop sees it. *)
Record Profile : Type := {
  p_joint_count : nat;
  p_damping : list Q;
  p_init_qpos : list FExpr
}.

(** Modelled from the spec: the construction of a profile, which lives in
    the base class [ManipulatorModel] and in the robot registry; neither is
    among the source files at hand, nor is the robot description
    [robots/panda_wrist/robot.xml] that fixes the joint count.  The spec
    asks that a damping vector or an initial joint-angle vector whose
    length differs from the joint count fails at construction. *)
Definition construct_profile (joint_count : nat) (damping : list Q)
    (init_qpos : list FExpr) : option Profile :=
  if ((length damping =? joint_count) && (length init_qpos =? joint_count))%nat
  then Some {| p_joint_count := joint_count; p_damping := damping;
               p_init_qpos := init_qpos |}
  else None.

(** ** Vocabulary of the statements *)

(** A program keeps the relation [R] between the state it starts in and the
    state it leaves, whether it returns or raises. *)
Definition preserves (R : State -> State -> Prop) {A} (m : M A) : Prop :=
  forall st, R st (fst (m st)).

(** The grasp input of an iteration, if it has one, satisfies [calm]. *)
Definition calm_tick (calm : Q -> Prop) (t : Tick) : Prop :=
  forall a g, t_input t = Some (a, g) -> calm g.

(** The CSV file is untouched and every call made satisfies [P]. *)
Definition quiet (P : Event -> Prop) (st st' : State) : Prop :=
  csv st' = csv st /\ exists new, log st' = log st ++ new /\ Forall P new.

(** The controlled arm is the same. *)
Definition same_arm (st st' : State) : Prop :=
  args st' !! "arm" = args st !! "arm".

(** A call that belongs to the end of a trial: the success check, the
    record, the dwell, the reset of the device. *)
Definition train_event (e : Event) : Prop :=
  e <> CheckSuccess /\ (forall r, e <> SaveData r) /\
  (forall n, e <> Sleep n) /\ e <> DeviceResetInternal.

(** The grasp input is not pressed. *)
Definition no_press (g : Q) : Prop := Qltb 0 g = false.


(** Membership of the two geometries of a contact in a list of names. *)
Definition first_in (env : SimEnv) (links : list string) (con : Contact) : bool :=
  name_in (geom_id2name env (geom1 con)) links.

Definition second_in (env : SimEnv) (links : list string) (con : Contact) : bool :=
  name_in (geom_id2name env (geom2 con)) links.

(** The marker drawn at a contact. *)
Definition contact_marker (con : Contact) : Event :=
  AddMarker (ContactSphere (pos con)).

Definition is_save_data (e : Event) : bool :=
  match e with SaveData _ => true | _ => false end.

(** A call that neither writes a record nor resets the simulation. *)
Definition not_record_nor_reset (e : Event) : Prop :=
  (forall r, e <> SaveData r) /\ e <> EnvReset.

(** The row that lines 378, 393 and 403 hand to [save_data]: only
    [Bookshelf] passes a disturbance. *)
Definition record_of (task robot : string) (chk : CheckResult) : Row :=
  {| r_subject_name := subject_name; r_task := task; r_robot := robot;
     r_trial := trial chk; r_success := success chk;
     r_success_time := success_time chk;
     r_disturbance := if String.eqb task "Bookshelf" then disturbance chk else "" |}.

(** The tasks that have a success check. *)
Definition scored_tasks : list string :=
  ["ConstrainedReorient"; "Bookshelf"; "DrawerPick"].

(** *** The claims that the script does not meet, as they are worded *)

(** "The action vector passed to the simulation step has length exactly
    env_action_dim", for every raw action, dimension and arm. *)
Definition steps_with_full_action (fault : option nat) (env : SimEnv)
    (action : list Q) (st : State) : Prop :=
  forall st' u, assemble_and_step fault env action st = (st', inr u) ->
  exists pre a', log st' = log st ++ pre ++ [Step a'] /\
                 length a' = action_dim env.

(** "With remaining > 0 and an arm other than right or left, the error is
    reported and the step of that tick is skipped." *)
Definition skips_step_on_unsupported_arm (fault : option nat) (env : SimEnv)
    (action : list Q) (st : State) : Prop :=
  forall v, args st !! "arm" = Some v ->
  v <> VStr "right" -> v <> VStr "left" ->
  (length action < action_dim env)%nat ->
  exists new, log (fst (assemble_and_step fault env action st)) = log st ++ new /\
              In (PrintUnsupportedArm v) new /\ forall a, ~ In (Step a) new.

(** "Whenever the gripper intent goes from non-positive to strictly
    positive, the active arm flips if switch-on-grasp is enabled." *)
Definition flips_on_rising_edge (fault : option nat) (g : Q) (st : State) : Prop :=
  (last_grasp st <= 0)%Q -> (0 < g)%Q ->
  forall sw arm, args st !! "switch_on_grasp" = Some sw -> truthy sw = true ->
  args st !! "arm" = Some arm ->
  args (fst (grasp_edge fault g st)) !! "arm"
    = Some (VStr (if py_eq arm (VStr "right") then "left" else "right")).

(** "When the predicate reports trial_ended, one record is appended, the
    frame is held for 3 time units, the device state is reset, the
    simulation is re-initialised for a new trial."  The simulation is
    re-initialised by [env.reset()], in this iteration or, after a [break],
    at the top of the outer loop. *)
Definition terminal_tick_resets (task robot : string) (env : SimEnv) (t : Tick)
    (st : State) : Prop :=
  trial_ended (t_check t) = true ->
  forall st' c, tick task robot env t st = (st', inr c) ->
  exists new, log st' = log st ++ new /\
    length (List.filter is_save_data new) = 1%nat /\
    In (Sleep 3) new /\ In DeviceResetInternal new /\
    (In EnvReset new \/ c = Break).

(** "If an exception is raised during a trial, the simulation is torn
    down and the session proceeds to the next pair without terminating the
    process": the loop over the robots does not end with an exception. *)
Definition exception_is_survived (task : string) (p : PairPlan)
    (rest : list PairPlan) (st0 : State) : Prop :=
  forall st_s st1 e,
    pair_setup task p st0 = (st_s, inr true) ->
    control_loop task (pp_robot p) (pp_env p) true (pp_ticks p) st_s = (st1, inl e) ->
    In EnvClose (log (fst (robots_loop task (p :: rest) st0))) /\
    exists s, snd (robots_loop task (p :: rest) st0) = inr s.

(** *** Inputs of the examples *)

(** The operator presses the space bar. *)
Definition key_pressed : list (list PgEvent) := [[PgOther]; [PgKeyDown 32]].

Definition no_check : CheckResult :=
  {| trial_ended := false; success := 0; success_time := 0;
     disturbance := ""; trial := 0 |}.

Definition ended_check : CheckResult :=
  {| trial_ended := true; success := 1; success_time := 125 # 10;
     disturbance := ""; trial := 1 |}.

(** Two robots, five action dimensions, two cameras; geometry 1 is a
    gripper pad, geometry 2 the last arm link, geometry 3 a table. *)
Definition demo_env : SimEnv :=
  {| action_dim := 5; robots := 2; camera_names := ["frontview"; "cabinetview"];
     geom_id2name := fun g =>
       if g =? 1 then Some "robot0_g0_col"
       else if g =? 2 then Some "robot0_link7_collision"
       else if g =? 3 then Some "table_collision"
       else None |}.

(** An iteration without fault or contact: the device gives [action] and
    [grasp], the success check answers [chk]. *)
Definition plain_tick (action : list Q) (grasp : Q) (chk : CheckResult) : Tick :=
  {| t_fault := None; t_input := Some (action, grasp); t_contacts := [];
     t_check := chk |}.


Definition grasp_script (gs : list Q) : list Tick :=
  map (fun g => plain_tick [1; 2]%Q g no_check) gs.

(** The device asks for a reset: [input2action] gives [(None, None)]. *)
Definition reset_tick : Tick :=
  {| t_fault := None; t_input := None; t_contacts := []; t_check := no_check |}.


(** A pair after another one: the operator presses a key and the script
    of the pair has one plain iteration. *)
Definition next_pair : PairPlan :=
  {| pp_robot := "PandaWrist"; pp_prompt := key_pressed; pp_setup_fault := None;
     pp_csv_exists := true; pp_env := demo_env;
     pp_ticks := [plain_tick [1; 2]%Q (-1)%Q no_check];
     pp_close_raises := false |}.

(** A pair whose [env.step] (line 361) raises in the first iteration and
    whose [env.close()] in the handler raises as well. *)
Definition aborted_with_raising_close : PairPlan :=
  {| pp_robot := "Panda"; pp_prompt := key_pressed; pp_setup_fault := None;
     pp_csv_exists := true; pp_env := demo_env;
     pp_ticks := [ {| t_fault := Some 361%nat; t_input := Some ([1; 2]%Q, (-1)%Q);
                      t_contacts := []; t_check := no_check |} ];
     pp_close_raises := true |}.

(** ** Vocabulary of the further properties *)

(** An event that ends the process: a window close or the Escape key. *)
Definition fatal (e : PgEvent) : bool :=
  match e with
  | PgQuit => true
  | PgKeyDown key => key =? K_ESCAPE
  | PgOther => false
  end.

(** A batch without window close or key press. *)
Definition silent (batch : list PgEvent) : Prop :=
  Forall (fun e => e = PgOther) batch.

(** The key of the last key press of a batch. *)
Fixpoint last_key (batch : list PgEvent) : option Z :=
  match batch with
  | [] => None
  | PgKeyDown key :: rest =>
      match last_key rest with Some k => Some k | None => Some key end
  | _ :: rest => last_key rest
  end.

Definition is_other (e : PgEvent) : bool :=
  match e with PgOther => true | _ => false end.

(** The life of a simulation as the calls show it: none is open, one was
    made and not yet reset, one is reset and in use. *)
Inductive Phase : Type := Closed | Made | Ready.

(** Which call may come in which phase: a prompt only while no simulation
    is open, [suite.make] only then too; the device construction, the
    registration of the viewer callbacks and the header of the CSV file on a
    simulation that was made and not yet reset; [env.reset()] and
    [env.close()] on an open simulation; every other call on a simulation
    that was reset.  The console print is no call on the simulation. *)
Definition phase_step (ph : Phase) (e : Event) : option Phase :=
  match e, ph with
  | Prompt _, Closed => Some Closed
  | MakeEnv _ _, Closed => Some Made
  | (DeviceInit _ _ _ | AddCallback _ | WriteHeader), Made => Some Made
  | EnvReset, (Made | Ready) => Some Ready
  | EnvClose, (Made | Ready) => Some Closed
  | PrintUnsupportedArm _, _ => Some ph
  | (Render | StartControl | SetCamera _ | Step _ | AddMarker _ | CheckSuccess
     | SaveData _ | Sleep _ | DeviceResetInternal), Ready => Some Ready
  | _, _ => None
  end.

Fixpoint lifecycle (ph : Phase) (l : list Event) : option Phase :=
  match l with
  | [] => Some ph
  | e :: r =>
      match phase_step ph e with
      | Some ph' => lifecycle ph' r
      | None => None
      end
  end.

(** A call that is in order on a simulation in use. *)
Definition ready_event (e : Event) : Prop := phase_step Ready e = Some Ready.

(** A call that is in order on a simulation that was made and not yet
    reset, and leaves it so. *)
Definition made_event (e : Event) : Prop := phase_step Made e = Some Made.

(** Every call made satisfies [P]. *)
Definition logs (P : Event -> Prop) (st st' : State) : Prop :=
  exists new, log st' = log st ++ new /\ Forall P new.

(** The CSV file is as it was. *)
Definition same_csv (st st' : State) : Prop := csv st' = csv st.

(** The CSV file only grew, by rows of this subject, task and robot. *)
Definition rows_added (task robot : string) (st st' : State) : Prop :=
  exists rows, csv st' = csv st ++ rows /\
    Forall (fun r => r_subject_name r = subject_name /\ r_task r = task /\
                     r_robot r = robot) rows.

(** [args] has no attribute [toggle_camera_on_grasp]. *)
Definition toggle_absent (st : State) : Prop :=
  args st !! "toggle_camera_on_grasp" = None.

(** If the attribute is absent it stays absent, and the camera is not
    switched. *)
Definition camera_untouched (st st' : State) : Prop :=
  toggle_absent st ->
  toggle_absent st' /\ logs (fun e => forall c, e <> SetCamera c) st st'.

(** The index of line 317 is within [env.robots]. *)
Definition robot_in_range (env : SimEnv) (config arm : PyVal) : Prop :=
  ((if py_eq config (VStr "bimanual") then 0
    else if py_eq arm (VStr "left") then 1 else 0) < robots env)%nat.

(** The rows that an iteration of a cooperative run writes. *)
Definition tick_rows (task robot : string) (t : Tick) : list Row :=
  match t_input t with
  | Some _ =>
      if existsb (String.eqb task) scored_tasks && trial_ended (t_check t)
      then [record_of task robot (t_check t)] else []
  | None => []
  end.

(** No call raises and the grasp input is never pressed. *)
Definition cooperative (script : list Tick) : Prop :=
  Forall (fun t => t_fault t = None /\ calm_tick no_press t) script.

(** A terminal iteration followed by a second report of the same, not yet
    reset, trial. *)
Definition twice_ended : list Tick :=
  [ plain_tick [1; 2]%Q (-1)%Q ended_check;
    plain_tick [1; 2]%Q (-1)%Q ended_check ].

(** [args] differs at most in [config], and no simulation step is
    taken. *)
Definition idle (st st' : State) : Prop :=
  (forall name, name <> "config" -> args st' !! name = args st !! name) /\
  logs (fun ev => forall a, ev <> Step a) st st'.

(** The attributes that lines 257-285 read. *)
Definition setup_attributes (st : State) : Prop :=
  is_Some (args st !! "directory") /\ is_Some (args st !! "device") /\
  is_Some (args st !! "pos_sensitivity") /\ is_Some (args st !! "rot_sensitivity").

(** A key other than escape is pressed at the prompt before the window is
    closed. *)
Definition acknowledged (batches : list (list PgEvent)) : Prop :=
  exists key, prompt_user_for_input batches = Returned key.

(** The pair is acknowledged, nothing raises before its [try], its loop
    is entered, and [env.close()] returns. *)
Definition pair_goes_through (p : PairPlan) : Prop :=
  acknowledged (pp_prompt p) /\ pp_setup_fault p = None /\
  pp_ticks p <> [] /\ pp_close_raises p = false.

(** Every task is one of [task_names] and is acknowledged, and so are its
    pairs. *)
Definition session_goes_through (plans : list TaskPlan) : Prop :=
  Forall (fun tp => is_Some (task_names (tp_task tp)) /\
                    acknowledged (tp_prompt tp) /\
                    Forall pair_goes_through (tp_pairs tp)) plans.

(** Every environment of the session has a single robot. *)
Definition single_robot (plans : list TaskPlan) : Prop :=
  Forall (fun tp => Forall (fun p => (robots (pp_env p) <= 1)%nat) (tp_pairs tp)) plans.

(** * Properties *)

(** ** Numbers, strings, the namespace *)

Lemma Qltb_lt (x y : Q) : Qltb x y = true <-> (x < y)%Q.
Proof.
  unfold Qltb. rewrite negb_true_iff. split.
  - intros H. apply Qnot_le_lt. intros Hle.
    apply Qle_bool_iff in Hle. congruence.
  - intros H. destruct (Qle_bool y x) eqn:E; [|reflexivity].
    apply Qle_bool_iff in E. exfalso. exact (Qlt_not_le _ _ H E).
Qed.

Lemma Qltb_nlt (x y : Q) : Qltb x y = false <-> ~ (x < y)%Q.
Proof.
  rewrite <- Qltb_lt. destruct (Qltb x y); split; intros; congruence.
Qed.

Lemma name_in_In (s : string) (links : list string) :
  name_in (Some s) links = true <-> In s links.
Proof.
  simpl. rewrite existsb_exists. split.
  - intros (x & Hx & E). apply String.eqb_eq in E. now subst.
  - intros H. exists s. split; [assumption|apply String.eqb_refl].
Qed.

(** The option of line 186 is spelled with two blanks, and so is the
    attribute argparse derives from it. *)
Lemma dest_of_toggle_option :
  Argparse.dest_of_option "--toggle-  camera-on-grasp" = "toggle_  camera_on_grasp".
Proof. reflexivity. Qed.

(** What [parse_args] stores under the names the loop reads. *)
Lemma parse_args_lookup (argv : list (string * PyVal)) :
  Argparse.parse_args argv !! "config"
    = Some (default (VStr "single-arm-opposed") (Argparse.given argv "--config")) /\
  Argparse.parse_args argv !! "arm"
    = Some (default (VStr "right") (Argparse.given argv "--arm")) /\
  Argparse.parse_args argv !! "switch_on_grasp"
    = Some (VBool (bool_decide (is_Some (Argparse.given argv "--switch-on-grasp")))) /\
  Argparse.parse_args argv !! "toggle_camera_on_grasp" = None.
Proof.
  unfold Argparse.parse_args, Argparse.stored. simpl.
  repeat split;
    repeat (first [ rewrite lookup_insert_eq | rewrite lookup_insert_ne by discriminate ]);
    try (destruct (Argparse.given argv _); reflexivity).
Qed.

(** ** Running programs forwards and backwards *)

Lemma bind_ok {A B} (m : M A) (k : A -> M B) st st1 a :
  m st = (st1, inr a) -> bind m k st = k a st1.
Proof. unfold bind. intros ->. reflexivity. Qed.

Lemma bind_err {A B} (m : M A) (k : A -> M B) st st1 e :
  m st = (st1, inl e) -> bind m k st = (st1, inl e).
Proof. unfold bind. intros ->. reflexivity. Qed.

Lemma bind_inr {A B} (m : M A) (k : A -> M B) st st' b :
  bind m k st = (st', inr b) ->
  exists a st1, m st = (st1, inr a) /\ k a st1 = (st', inr b).
Proof.
  unfold bind. destruct (m st) as [st1 [e|a]]; [discriminate|].
  intros H. exists a, st1. split; [reflexivity|assumption].
Qed.

Lemma call_inr fault line ev st st' u :
  call fault line ev st = (st', inr u) ->
  fault <> Some line /\ emit ev st = (st', inr tt).
Proof.
  unfold call. case_bool_decide; [discriminate|].
  destruct u. intros E. split; assumption.
Qed.

Lemma call_None line ev : call None line ev = emit ev.
Proof. reflexivity. Qed.

Lemma input2action_value t st st1 s :
  input2action t st = (st1, inr s) -> s = t_input t.
Proof.
  unfold input2action. intros H.
  apply bind_inr in H as (_ & st2 & _ & H).
  apply bind_inr in H as (_ & st3 & _ & H).
  case_bool_decide; [discriminate|]. unfold ret in H. congruence.
Qed.

(** ** Frame conditions: what a program leaves alone *)

Section Preserves.

(** [R st st'] relates a state to a later one; [P] tells which calls
    [R] tolerates; [calm g] tells for which grasp inputs [R] survives the
    arm switch; [task] is the task at hand. *)
Variable R : State -> State -> Prop.
Variable P : Event -> Prop.
Variable calm : Q -> Prop.
Variable task : string.

Hypothesis R_refl : forall st, R st st.
Hypothesis R_trans : forall a b c, R a b -> R b c -> R a c.

Hypothesis R_cam : forall c, preserves R (set_cam_id c).
Hypothesis R_num : forall n, preserves R (set_num_cam n).
Hypothesis R_grasp : forall g, preserves R (set_last_grasp g).
Hypothesis R_config : preserves R (setattr "config" VNone).
Hypothesis R_emit : forall ev, P ev -> preserves R (emit ev).
Hypothesis R_edge : forall fault g, calm g -> preserves R (grasp_edge fault g).
Hypothesis R_feedback : forall fault robot chk,
  preserves R (task_feedback fault task robot chk).

Hypothesis P_prompt : forall s, P (Prompt s).
Hypothesis P_make : forall t r, P (MakeEnv t r).
Hypothesis P_device : forall k u d, P (DeviceInit k u d).
Hypothesis P_callback : forall k, P (AddCallback k).
Hypothesis P_header : P WriteHeader.
Hypothesis P_reset : P EnvReset.
Hypothesis P_render : P Render.
Hypothesis P_start : P StartControl.
Hypothesis P_print : forall a, P (PrintUnsupportedArm a).
Hypothesis P_step : forall a, P (Step a).
Hypothesis P_marker : forall m, P (AddMarker m).
Hypothesis P_close : P EnvClose.

Lemma preserves_ret {A} (a : A) : preserves R (ret a).
Proof. intros st. apply R_refl. Qed.

Lemma preserves_raise {A} (e : Exn) : preserves R (@raise A e).
Proof. intros st. apply R_refl. Qed.

Lemma preserves_gets {A} (f : State -> A) : preserves R (gets f).
Proof. intros st. apply R_refl. Qed.

Lemma preserves_getattr name : preserves R (getattr name).
Proof. intros st. unfold getattr. destruct (args st !! name); apply R_refl. Qed.

Lemma preserves_bind {A B} (m : M A) (k : A -> M B) :
  preserves R m -> (forall a, preserves R (k a)) -> preserves R (bind m k).
Proof.
  intros Hm Hk st. unfold bind. specialize (Hm st).
  destruct (m st) as [st1 [e|a]]; simpl in *; [assumption|].
  eapply R_trans; [exact Hm|apply Hk].
Qed.

Lemma preserves_bind_post {A B} (m : M A) (k : A -> M B) (post : A -> Prop) :
  preserves R m ->
  (forall st st1 a, m st = (st1, inr a) -> post a) ->
  (forall a, post a -> preserves R (k a)) ->
  preserves R (bind m k).
Proof.
  intros Hm Hpost Hk st. unfold bind. specialize (Hm st). specialize (Hpost st).
  destruct (m st) as [st1 [e|a]]; simpl in *; [assumption|].
  eapply R_trans; [exact Hm|]. apply Hk. eapply Hpost. reflexivity.
Qed.

Lemma preserves_if {A} (b : bool) (m1 m2 : M A) :
  preserves R m1 -> preserves R m2 -> preserves R (if b then m1 else m2).
Proof. destruct b; auto. Qed.

Lemma preserves_index n i : preserves R (index n i).
Proof.
  unfold index. apply preserves_if; [apply preserves_ret|apply preserves_raise].
Qed.

Lemma preserves_call fault line ev : P ev -> preserves R (call fault line ev).
Proof.
  intros H. unfold call. apply preserves_if; [apply preserves_raise|auto].
Qed.

Lemma preserves_active_robot env : preserves R (active_robot env).
Proof.
  unfold active_robot. apply preserves_bind; [apply preserves_getattr|intros config].
  apply preserves_if; [apply preserves_index|].
  apply preserves_bind; [apply preserves_getattr|intros arm]. apply preserves_index.
Qed.

Lemma preserves_input2action t : preserves R (input2action t).
Proof.
  unfold input2action.
  repeat (apply preserves_bind; [apply preserves_getattr|intros _]).
  apply preserves_if; [apply preserves_raise|apply preserves_ret].
Qed.

Lemma preserves_assemble env action : preserves R (assemble env action).
Proof.
  unfold assemble. apply preserves_if.
  - apply preserves_bind; [apply preserves_getattr|intros arm].
    repeat (apply preserves_if; [apply preserves_ret|]).
    apply preserves_bind; [auto|intros _; apply preserves_ret].
  - apply preserves_if; apply preserves_ret.
Qed.

Lemma preserves_assemble_and_step fault env action :
  preserves R (assemble_and_step fault env action).
Proof.
  unfold assemble_and_step.
  apply preserves_bind; [apply preserves_assemble|intros a].
  apply preserves_call; auto.
Qed.

Lemma preserves_safety_scan fault env links contacts :
  preserves R (safety_scan fault env links contacts).
Proof.
  induction contacts as [|con rest IH]; simpl; [apply preserves_ret|].
  apply preserves_bind; [|intros _; exact IH].
  apply preserves_if; [apply preserves_call; auto|apply preserves_ret].
Qed.

Lemma preserves_trial_setup fault env : preserves R (trial_setup fault env).
Proof.
  unfold trial_setup.
  repeat (apply preserves_bind; [first [apply preserves_call|idtac]; auto|intros _]).
  apply preserves_call; auto.
Qed.

Lemma preserves_tick robot env t :
  calm_tick calm t -> preserves R (tick task robot env t).
Proof.
  intros Hc. unfold tick.
  apply preserves_bind; [apply preserves_active_robot|intros _].
  apply (preserves_bind_post _ _ (fun s => s = t_input t));
    [apply preserves_input2action|apply input2action_value|intros [[a g]|] Hs];
    [|apply preserves_ret].
  apply preserves_bind; [apply R_edge, (Hc a g); congruence|intros _].
  apply preserves_bind; [apply preserves_assemble_and_step|intros _].
  apply preserves_bind; [apply preserves_safety_scan|intros _].
  apply preserves_bind; [apply R_feedback|intros _].
  apply preserves_bind; [apply preserves_call; auto|intros _].
  apply preserves_ret.
Qed.

Lemma preserves_control_loop robot env script :
  Forall (calm_tick calm) script ->
  forall new_trial, preserves R (control_loop task robot env new_trial script).
Proof.
  induction 1 as [|t rest Ht _ IH]; intros new_trial; simpl; [apply preserves_ret|].
  apply preserves_bind;
    [apply preserves_if; [apply preserves_trial_setup|apply preserves_ret]|intros _].
  apply preserves_bind; [apply preserves_tick; assumption|intros c]. apply IH.
Qed.

Lemma preserves_run_pair p :
  Forall (calm_tick calm) (pp_ticks p) -> preserves R (run_pair task p).
Proof.
  intros Hc st. unfold run_pair.
  pose proof (preserves_control_loop (pp_robot p) (pp_env p) _ Hc true st) as H.
  destruct (control_loop _ _ _ _ _ st) as [st1 [e|u]]; simpl in *; [|assumption].
  eapply R_trans; [exact H|].
  apply (preserves_bind (call _ 427 EnvClose) (fun _ => ret (Aborted e)));
    [apply preserves_call; auto|intros _; apply preserves_ret].
Qed.

Lemma preserves_prompt text batches : preserves R (prompt text batches).
Proof.
  unfold prompt. apply preserves_bind; [auto|intros _].
  destruct (prompt_user_for_input batches);
    [apply preserves_ret|apply preserves_raise|apply preserves_ret].
Qed.

Lemma preserves_may_raise fault line : preserves R (may_raise fault line).
Proof.
  unfold may_raise. apply preserves_if; [apply preserves_raise|apply preserves_ret].
Qed.

Lemma preserves_make_device fault robot : preserves R (make_device fault task robot).
Proof.
  unfold make_device. apply preserves_bind; [apply preserves_getattr|intros dev].
  repeat (apply preserves_if;
          [repeat first [ apply preserves_may_raise
                        | apply preserves_getattr
                        | apply preserves_call; auto
                        | apply preserves_bind; [|intros _] ]|]).
  apply preserves_ret.
Qed.

Lemma preserves_device_and_header p : preserves R (device_and_header task p).
Proof.
  unfold device_and_header.
  apply preserves_bind; [apply preserves_getattr|intros _].
  apply preserves_bind; [apply preserves_make_device|intros _].
  apply preserves_if; [apply preserves_ret|apply preserves_call; auto].
Qed.

Lemma preserves_pair_setup p : preserves R (pair_setup task p).
Proof.
  unfold pair_setup.
  apply preserves_bind; [apply preserves_prompt|intros ok].
  apply preserves_if; [|apply preserves_ret].
  apply preserves_bind; [auto|intros _].
  apply preserves_bind; [apply preserves_call; auto|intros _].
  apply preserves_bind; [apply preserves_device_and_header|intros _].
  apply preserves_ret.
Qed.

Lemma preserves_robots_loop pairs :
  Forall (fun p => Forall (calm_tick calm) (pp_ticks p)) pairs ->
  preserves R (robots_loop task pairs).
Proof.
  induction 1 as [|p rest Hp _ IH]; simpl; [apply preserves_ret|].
  apply preserves_bind; [apply preserves_pair_setup|intros ok].
  apply preserves_if; [|apply preserves_ret].
  apply preserves_bind; [apply preserves_run_pair; assumption|intros [e|]];
    [exact IH|apply preserves_ret].
Qed.

End Preserves.

(** The loop over the tasks keeps what the loop over the robots keeps. *)
Lemma preserves_tasks_loop R (P : Event -> Prop) (good : PairPlan -> Prop) :
  (forall st, R st st) ->
  (forall a b c, R a b -> R b c -> R a c) ->
  (forall ev, P ev -> preserves R (emit ev)) ->
  (forall s, P (Prompt s)) ->
  (forall task pairs, Forall good pairs -> preserves R (robots_loop task pairs)) ->
  forall plans,
    Forall (fun tp => Forall good (tp_pairs tp)) plans ->
    preserves R (tasks_loop plans).
Proof.
  intros Hr Ht He Hp Hloop plans.
  induction 1 as [|tp rest Htp _ IH]; simpl; [apply preserves_ret, Hr|].
  destruct (task_names (tp_task tp)) as [name|]; [|apply preserves_raise, Hr].
  apply preserves_bind; [exact Ht|apply (preserves_prompt R P); assumption|intros ok].
  apply preserves_if; [|apply preserves_ret, Hr].
  apply preserves_bind; [exact Ht|apply Hloop, Htp|].
  intros [|task robot|]; [exact IH|apply preserves_ret, Hr|apply preserves_ret, Hr].
Qed.

(** *** Two frame relations *)

Lemma quiet_refl P st : quiet P st st.
Proof. split; [reflexivity|]. exists []. split; [now rewrite app_nil_r|constructor]. Qed.

Lemma quiet_trans P a b c : quiet P a b -> quiet P b c -> quiet P a c.
Proof.
  intros [Hc1 (n1 & Hl1 & Hp1)] [Hc2 (n2 & Hl2 & Hp2)]. split; [congruence|].
  exists (n1 ++ n2). split; [rewrite Hl2, Hl1; now rewrite app_assoc|].
  apply Forall_app; split; assumption.
Qed.

Lemma quiet_emit P ev : P ev -> preserves (quiet P) (emit ev).
Proof.
  intros H st. split; [reflexivity|]. exists [ev]. split; [reflexivity|].
  constructor; [assumption|constructor].
Qed.

Lemma quiet_local P (m : M unit) :
  (forall st, csv (fst (m st)) = csv st /\ log (fst (m st)) = log st) ->
  preserves (quiet P) m.
Proof.
  intros H st. destruct (H st) as [Hc Hl]. split; [assumption|].
  exists []. split; [now rewrite app_nil_r|constructor].
Qed.

Lemma same_arm_refl st : same_arm st st.
Proof. reflexivity. Qed.

Lemma same_arm_trans a b c : same_arm a b -> same_arm b c -> same_arm a c.
Proof. unfold same_arm. congruence. Qed.

Lemma same_arm_config : preserves same_arm (setattr "config" VNone).
Proof. intros st. unfold same_arm. simpl. now rewrite lookup_insert_ne. Qed.

Create HintDb frame.

#[local] Hint Resolve quiet_refl quiet_trans quiet_emit same_arm_refl same_arm_trans
  same_arm_config : frame.
#[local] Hint Extern 1 (preserves (quiet _) _) =>
  (apply quiet_local; intros ?; split; reflexivity) : frame.
#[local] Hint Extern 1 (preserves same_arm _) => (intros ?; reflexivity) : frame.

(** Walks through a program built from [bind], conditionals and calls. *)
Ltac frame_with P :=
  repeat first
    [ apply preserves_ret
    | apply preserves_raise
    | apply preserves_gets
    | apply preserves_getattr
    | apply preserves_index
    | apply (preserves_call _ P)
    | apply preserves_if
    | apply preserves_bind; [| |intros ?] ];
  eauto with frame.

Ltac frame := frame_with (fun _ : Event => True).

Lemma preserves_py_mod R a b :
  (forall st, R st st) -> preserves R (py_mod a b).
Proof. intros Hr. unfold py_mod. frame. Qed.

Lemma quiet_grasp_edge P fault g :
  (forall c, P (SetCamera c)) -> preserves (quiet P) (grasp_edge fault g).
Proof.
  intros HP. unfold grasp_edge, setattr. frame_with P.
Qed.



Lemma task_feedback_train fault robot chk :
  task_feedback fault "Train" robot chk = call fault 412 (AddMarker TrainArrow).
Proof. reflexivity. Qed.

(** ** The training task *)

Lemma tick_control task robot env t st st' c :
  tick task robot env t st = (st', inr c) ->
  c = match t_input t with None => Break | Some _ => Continue end.
Proof.
  unfold tick. intros H.
  apply bind_inr in H as (_ & st1 & _ & H).
  apply bind_inr in H as (s & st2 & Hs & H).
  apply input2action_value in Hs. subst s.
  destruct (t_input t) as [[a g]|]; [|unfold ret in H; congruence].
  repeat (apply bind_inr in H as (_ & ? & _ & H)).
  unfold ret in H. congruence.
Qed.

Lemma train_event_quiet_pair p :
  preserves (quiet train_event) (run_pair "Train" p).
Proof.
  apply (preserves_run_pair (quiet train_event) train_event (fun _ => True) "Train");
    eauto with frame;
    try (intros; repeat split; intros; discriminate).
  - intros fault g _. apply quiet_grasp_edge.
    intros c. repeat split; intros; discriminate.
  - intros fault robot chk. rewrite task_feedback_train.
    apply (preserves_call _ train_event); eauto with frame.
    repeat split; intros; discriminate.
  - apply Forall_forall. intros t _ a g _. exact I.
Qed.

(** C9.  For the task "Train" the branch after the simulation step only
    adds the goal-pose marker; whatever the device, the simulation and the
    viewer answer, a run of a (Train, robot) pair leaves the CSV file as it
    was and makes no success check, writes no record, holds no dwell and
    does not reset the device; an iteration that returns ends the trial
    exactly when the device sample is the reset signal. *)
Theorem train_never_checks_nor_records (p : PairPlan) (st : State) :
  (forall fault chk,
     task_feedback fault "Train" (pp_robot p) chk
       = call fault 412 (AddMarker TrainArrow)) /\
  csv (fst (run_pair "Train" p st)) = csv st /\
  (exists new, log (fst (run_pair "Train" p st)) = log st ++ new /\
               Forall train_event new) /\
  (forall env t s s' c,
     tick "Train" (pp_robot p) env t s = (s', inr c) ->
     (c = Break <-> t_input t = None)).
Proof.
  split; [intros; reflexivity|].
  destruct (train_event_quiet_pair p st) as [Hcsv Hlog].
  split; [exact Hcsv|]. split; [exact Hlog|].
  intros env t s s' c H. apply tick_control in H. subst c.
  destruct (t_input t); split; intros; congruence.
Qed.

(** A reset signal of the device ends a training trial. *)
Lemma train_never_checks_nor_records_witness :
  Break = Break <-> t_input reset_tick = None.
Proof.
  apply (proj2 (proj2 (proj2 (train_never_checks_nor_records
           {| pp_robot := "PandaWrist"; pp_env := demo_env; pp_ticks := [];
              pp_close_raises := false;
              pp_prompt := key_pressed; pp_setup_fault := None;
              pp_csv_exists := true |} (initial_state []))))
           demo_env reset_tick (initial_state [])
           (fst (tick "Train" "PandaWrist" demo_env reset_tick (initial_state [])))).
  vm_compute. reflexivity.
Defined.

(** ** The controlled arm across trials and pairs *)






(** ** The contact scan *)

Lemma flagged_xor env links con :
  flagged env links con = xorb (first_in env links con) (second_in env links con).
Proof.
  unfold flagged, first_in, second_in.
  destruct (name_in _ _), (name_in _ _); reflexivity.
Qed.

Lemma safety_scan_log fault env links contacts st :
  fault <> Some 370%nat ->
  exists st', safety_scan fault env links contacts st = (st', inr tt) /\
    log st' = log st ++ map contact_marker (List.filter (flagged env links) contacts) /\
    csv st' = csv st /\ args st' = args st.
Proof.
  intros Hf. revert st. induction contacts as [|con rest IH]; intros st; simpl.
  - exists st. rewrite app_nil_r. auto.
  - unfold bind. destruct (flagged env links con); simpl; [|apply IH].
    unfold call. rewrite bool_decide_false by assumption. simpl.
    match goal with |- context [safety_scan _ _ _ _ ?s] =>
      destruct (IH s) as (st' & H & Hl & Hc & Ha) end.
    exists st'. rewrite H. simpl in *. rewrite Hl, <- app_assoc. auto.
Qed.

(** C5.  A contact is flagged exactly when one of its two geometry names is
    in [links2check] and the other is not: never when both are, never when
    neither is.  The scan draws one marker for each flagged contact of the
    contact list, in order, and for no other contact. *)
Theorem safety_scan_flags_one_sided_contacts fault env contacts st :
  fault <> Some 370%nat ->
  (forall con,
     flagged env links2check con
       = xorb (first_in env links2check con) (second_in env links2check con)) /\
  (forall s, name_in (Some s) links2check = true <-> In s links2check) /\
  exists st',
    safety_scan fault env links2check contacts st = (st', inr tt) /\
    log st' = log st ++
      map contact_marker
        (List.filter (fun con => xorb (first_in env links2check con)
                                      (second_in env links2check con)) contacts).
Proof.
  intros Hf. split; [intros; apply flagged_xor|].
  split; [intros; apply name_in_In|].
  destruct (safety_scan_log fault env links2check contacts st Hf)
    as (st' & H & Hl & _).
  exists st'. split; [exact H|]. rewrite Hl. do 2 f_equal.
  apply List.filter_ext. intros con. apply flagged_xor.
Qed.

(** The gripper pad against the table is flagged; pad against arm link
    (both in the list) and table against an unnamed geometry (both outside)
    are not. *)
Lemma safety_scan_flags_one_sided_contacts_witness :
  exists st',
    safety_scan None demo_env links2check
      [ {| geom1 := 1; geom2 := 2; pos := [0; 0; 1]%Q |};
        {| geom1 := 3; geom2 := 1; pos := [1; 0; 0]%Q |};
        {| geom1 := 3; geom2 := 7; pos := [0; 1; 0]%Q |} ]
      (initial_state []) = (st', inr tt) /\
    log st' = [AddMarker (ContactSphere [1; 0; 0]%Q)].
Proof.
  destruct (safety_scan_flags_one_sided_contacts None demo_env
      [ {| geom1 := 1; geom2 := 2; pos := [0; 0; 1]%Q |};
        {| geom1 := 3; geom2 := 1; pos := [1; 0; 0]%Q |};
        {| geom1 := 3; geom2 := 7; pos := [0; 1; 0]%Q |} ]
      (initial_state [])) as (_ & _ & st' & H & Hl); [discriminate|].
  exists st'. split; [exact H|exact Hl].
Defined.

(** ** Filling and trimming the action *)

Lemma py_eq_str v s : py_eq v (VStr s) = true <-> v = VStr s.
Proof.
  destruct v; simpl; try (split; intros; discriminate).
  rewrite String.eqb_eq. split; congruence.
Qed.

Lemma py_eq_str_false v s : py_eq v (VStr s) = false <-> v <> VStr s.
Proof.
  rewrite <- py_eq_str. destruct (py_eq v (VStr s)); split; intros; congruence.
Qed.

Lemma assemble_unfold env action st :
  assemble env action st =
    let rem_action_dim := Z.of_nat (action_dim env) - Z.of_nat (length action) in
    if 0 <? rem_action_dim then
      match args st !! "arm" with
      | None => (st, inl (AttributeError "arm"))
      | Some arm =>
          if py_eq arm (VStr "right")
          then (st, inr (action ++ repeat 0%Q (Z.to_nat rem_action_dim)))
          else if py_eq arm (VStr "left")
          then (st, inr (repeat 0%Q (Z.to_nat rem_action_dim) ++ action))
          else (fst (emit (PrintUnsupportedArm arm) st), inr action)
      end
    else if rem_action_dim <? 0 then (st, inr (firstn (action_dim env) action))
    else (st, inr action).
Proof.
  unfold assemble, bind, getattr, ret. simpl.
  destruct (0 <? _); [|destruct (_ <? 0); reflexivity].
  destruct (args st !! "arm") as [arm|]; [|reflexivity].
  destruct (py_eq arm (VStr "right")); [reflexivity|].
  destruct (py_eq arm (VStr "left")); reflexivity.
Qed.

(** C7.  With [remaining = env.action_dim - action.size]: when it is
    positive the action is followed by that many zeros if the arm is
    "right" and preceded by them if the arm is "left"; when it is negative
    the first [env.action_dim] elements are kept; when it is zero the
    action is returned as it is.  In the first three cases nothing else
    changes. *)
Theorem assemble_pads_or_trims env action st :
  let remaining := Z.of_nat (action_dim env) - Z.of_nat (length action) in
  (0 < remaining -> args st !! "arm" = Some (VStr "right") ->
   assemble env action st
     = (st, inr (action ++ repeat 0%Q (Z.to_nat remaining)))) /\
  (0 < remaining -> args st !! "arm" = Some (VStr "left") ->
   assemble env action st
     = (st, inr (repeat 0%Q (Z.to_nat remaining) ++ action))) /\
  (remaining < 0 ->
   assemble env action st = (st, inr (firstn (action_dim env) action))) /\
  (remaining = 0 -> assemble env action st = (st, inr action)).
Proof.
  intros remaining. rewrite assemble_unfold. fold remaining. simpl.
  repeat split.
  - intros Hr Ha. rewrite (proj2 (Z.ltb_lt _ _) Hr), Ha. reflexivity.
  - intros Hr Ha. rewrite (proj2 (Z.ltb_lt _ _) Hr), Ha. reflexivity.
  - intros Hr. rewrite (proj2 (Z.ltb_ge _ _)) by lia.
    rewrite (proj2 (Z.ltb_lt _ _) Hr). reflexivity.
  - intros Hr. rewrite Hr. reflexivity.
Qed.

(** [1, 2] in a five-dimensional action space: [1, 2, 0, 0, 0] for the
    right arm, [0, 0, 0, 1, 2] for the left one; [1, 2, 3] in a
    two-dimensional one: [1, 2]. *)
Lemma assemble_pads_or_trims_witness :
  assemble demo_env [1; 2]%Q (initial_state [])
    = (initial_state [], inr [1; 2; 0; 0; 0]%Q) /\
  assemble demo_env [1; 2]%Q (initial_state [("--arm", VStr "left")])
    = (initial_state [("--arm", VStr "left")], inr [0; 0; 0; 1; 2]%Q) /\
  assemble {| action_dim := 2; robots := 1; camera_names := [];
              geom_id2name := fun _ => None |} [1; 2; 3]%Q (initial_state [])
    = (initial_state [], inr [1; 2]%Q) /\
  assemble demo_env [1; 2; 3; 4; 5]%Q (initial_state [])
    = (initial_state [], inr [1; 2; 3; 4; 5]%Q).
Proof.
  split; [|split; [|split]].
  - apply (proj1 (assemble_pads_or_trims demo_env [1; 2]%Q (initial_state [])));
      [reflexivity|vm_compute; reflexivity].
  - apply (proj1 (proj2 (assemble_pads_or_trims demo_env [1; 2]%Q
                           (initial_state [("--arm", VStr "left")]))));
      [reflexivity|vm_compute; reflexivity].
  - apply (proj1 (proj2 (proj2 (assemble_pads_or_trims
             {| action_dim := 2; robots := 1; camera_names := [];
                geom_id2name := fun _ => None |} [1; 2; 3]%Q (initial_state [])))));
      reflexivity.
  - apply (proj2 (proj2 (proj2 (assemble_pads_or_trims demo_env
             [1; 2; 3; 4; 5]%Q (initial_state [])))));
      reflexivity.
Defined.

Lemma assemble_and_step_unfold fault env action st :
  assemble_and_step fault env action st =
    match assemble env action st with
    | (st1, inr a') => call fault 361 (Step a') st1
    | (st1, inl e) => (st1, inl e)
    end.
Proof. reflexivity. Qed.

(** C2, as the script has it.  When the arm is "right" or "left", or the
    device action is at least as long as the action space, the vector
    handed to [env.step] has exactly [env.action_dim] elements, whatever
    the sign of the difference. *)
Theorem step_action_has_env_dimension fault env action st st' u :
  assemble_and_step fault env action st = (st', inr u) ->
  args st !! "arm" = Some (VStr "right") \/
  args st !! "arm" = Some (VStr "left") \/
  (action_dim env <= length action)%nat ->
  exists a', log st' = log st ++ [Step a'] /\ length a' = action_dim env.
Proof.
  intros H Hcase. rewrite assemble_and_step_unfold, assemble_unfold in H.
  simpl in H.
  destruct (0 <? _) eqn:Hpos.
  - apply Z.ltb_lt in Hpos.
    destruct Hcase as [Ha|[Ha|Hle]]; [| |lia]; rewrite Ha in H; simpl in H;
      apply call_inr in H as [_ H]; unfold emit in H; simplify_eq; simpl;
      eexists; (split; [reflexivity|]);
      rewrite length_app, repeat_length; lia.
  - apply Z.ltb_ge in Hpos. destruct (_ <? 0) eqn:Hneg;
      apply call_inr in H as [_ H]; unfold emit in H; simplify_eq; simpl;
      eexists; (split; [reflexivity|]).
    + apply Z.ltb_lt in Hneg. rewrite length_firstn. lia.
    + apply Z.ltb_ge in Hneg. lia.
Qed.

Lemma step_action_has_env_dimension_witness :
  exists a', log (fst (assemble_and_step None demo_env [1; 2]%Q (initial_state [])))
               = [Step a'] /\ length a' = 5%nat.
Proof.
  apply (step_action_has_env_dimension None demo_env [1; 2]%Q (initial_state [])
           _ tt); [reflexivity|left; vm_compute; reflexivity].
Defined.

(** With the arm "bimanual" a two-element device action reaches [env.step]
    of a five-dimensional environment with two elements. *)
Lemma step_action_short_for_other_arm :
  ~ steps_with_full_action None demo_env [1; 2]%Q
      (initial_state [("--arm", VStr "bimanual")]).
Proof.
  intros H.
  destruct (H (fst (assemble_and_step None demo_env [1; 2]%Q
                      (initial_state [("--arm", VStr "bimanual")]))) tt)
    as (pre & a' & Hlog & Hlen); [vm_compute; reflexivity|].
  vm_compute in Hlog.
  change ([PrintUnsupportedArm (VStr "bimanual")] ++ [Step [1; 2]%Q]
          = pre ++ [Step a']) in Hlog.
  apply app_inj_tail in Hlog as [_ Ha].
  injection Ha as <-. discriminate.
Qed.

(** C3, as the script has it.  With a positive remainder and an arm that
    is neither "right" nor "left", the error message is printed and the
    device action goes to [env.step] as it is: the step is taken. *)
Theorem unsupported_arm_is_printed_and_stepped fault env action st v :
  args st !! "arm" = Some v ->
  v <> VStr "right" -> v <> VStr "left" ->
  (length action < action_dim env)%nat ->
  fault <> Some 361%nat ->
  exists st',
    assemble_and_step fault env action st = (st', inr tt) /\
    log st' = log st ++ [PrintUnsupportedArm v; Step action] /\
    csv st' = csv st /\ args st' = args st.
Proof.
  intros Ha Hr Hl Hlen Hf. rewrite assemble_and_step_unfold, assemble_unfold.
  simpl. rewrite (proj2 (Z.ltb_lt _ _)) by lia. rewrite Ha.
  apply py_eq_str_false in Hr, Hl. rewrite Hr, Hl.
  unfold call. rewrite bool_decide_false by assumption.
  eexists. split; [reflexivity|]. simpl. rewrite <- app_assoc. auto.
Qed.

Lemma unsupported_arm_is_printed_and_stepped_witness :
  exists st',
    assemble_and_step None demo_env [1; 2]%Q
      (initial_state [("--arm", VStr "bimanual")]) = (st', inr tt) /\
    log st' = [PrintUnsupportedArm (VStr "bimanual"); Step [1; 2]%Q].
Proof.
  destruct (unsupported_arm_is_printed_and_stepped None demo_env [1; 2]%Q
              (initial_state [("--arm", VStr "bimanual")]) (VStr "bimanual"))
    as (st' & H & Hl & _); try discriminate.
  - vm_compute; reflexivity.
  - simpl. lia.
  - exists st'. split; [exact H|exact Hl].
Defined.

(** The step is not skipped. *)
Lemma unsupported_arm_still_steps :
  ~ skips_step_on_unsupported_arm None demo_env [1; 2]%Q
      (initial_state [("--arm", VStr "bimanual")]).
Proof.
  intros H.
  destruct (H (VStr "bimanual")) as (new & Hlog & _ & Hno);
    [vm_compute; reflexivity|discriminate|discriminate|simpl; lia|].
  vm_compute in Hlog. subst new.
  apply (Hno [1; 2]%Q). right. left. reflexivity.
Qed.

(** ** Arm switch on a grasp press *)

Lemma grasp_edge_no_edge fault g st :
  Qltb (last_grasp st) 0 && Qltb 0 g = false ->
  grasp_edge fault g st = set_last_grasp g st.
Proof.
  intros H. unfold grasp_edge, bind, gets. simpl. rewrite H. reflexivity.
Qed.

Lemma grasp_edge_arm fault g st sw arm :
  args st !! "switch_on_grasp" = Some sw ->
  args st !! "arm" = Some arm ->
  args (fst (grasp_edge fault g st)) !! "arm" =
    Some (if Qltb (last_grasp st) 0 && Qltb 0 g && truthy sw
          then VStr (if py_eq arm (VStr "right") then "left" else "right")
          else arm).
Proof.
  intros Hsw Harm.
  destruct (Qltb (last_grasp st) 0 && Qltb 0 g) eqn:He;
    [|rewrite grasp_edge_no_edge by exact He; exact Harm].
  unfold grasp_edge, bind, gets, getattr, setattr, set_args, py_mod, call.
  simpl. rewrite He, Hsw. simpl.
  destruct (truthy sw); simpl; rewrite ?Harm; simpl;
    repeat (match goal with
            | |- context [match ?m !! "toggle_camera_on_grasp" with _ => _ end] =>
                destruct (m !! "toggle_camera_on_grasp")
            | |- context [if ?b then _ else _] => destruct b
            end; simpl);
    first [apply lookup_insert_eq | exact Harm].
Qed.

(** C4, as the script has it.  The arm switch fires on the press of the
    grasp input: when the previous grasp value is strictly negative and the
    current one strictly positive, and [--switch-on-grasp] is set, "right"
    becomes "left" and anything else becomes "right".  In every other
    iteration (previous value zero or positive, or current value not
    positive) only [last_grasp] is updated; without [--switch-on-grasp] the
    arm stays.  The grasp inputs -1, -1, 0.5 from the start of a trial
    leave the arm alone twice and switch it once. *)
Theorem arm_switch_on_press fault g st sw arm :
  args st !! "switch_on_grasp" = Some sw ->
  args st !! "arm" = Some arm ->
  ((last_grasp st < 0)%Q -> (0 < g)%Q -> truthy sw = true ->
   args (fst (grasp_edge fault g st)) !! "arm"
     = Some (VStr (if py_eq arm (VStr "right") then "left" else "right"))) /\
  (~ ((last_grasp st < 0)%Q /\ (0 < g)%Q) ->
   grasp_edge fault g st = set_last_grasp g st) /\
  (truthy sw = false -> args (fst (grasp_edge fault g st)) !! "arm" = Some arm) /\
  (let st0 := initial_state [("--switch-on-grasp", VBool true)] in
   let arm_after gs :=
     args (fst (control_loop "DrawerPick" "Panda" demo_env true (grasp_script gs) st0))
       !! "arm" in
   arm_after [] = Some (VStr "right") /\
   arm_after [-1]%Q = Some (VStr "right") /\
   arm_after [-1; -1]%Q = Some (VStr "right") /\
   arm_after [-1; -1; 1 # 2]%Q = Some (VStr "left")).
Proof.
  intros Hsw Harm. pose proof (grasp_edge_arm fault g st sw arm Hsw Harm) as H.
  split; [|split; [|split]].
  - intros H1 H2 H3. apply Qltb_lt in H1, H2. rewrite H, H1, H2, H3. reflexivity.
  - intros Hn. apply grasp_edge_no_edge.
    destruct (Qltb (last_grasp st) 0) eqn:E1; [|reflexivity].
    destruct (Qltb 0 g) eqn:E2; [|reflexivity].
    exfalso. apply Hn. split; apply Qltb_lt; assumption.
  - intros H3. rewrite H, H3, andb_false_r. reflexivity.
  - cbv zeta. repeat split; vm_compute; reflexivity.
Qed.

(** After two iterations with grasp -1 the press 0.5 switches the arm. *)
Lemma arm_switch_on_press_witness :
  let st := fst (control_loop "DrawerPick" "Panda" demo_env true
                   (grasp_script [-1; -1]%Q)
                   (initial_state [("--switch-on-grasp", VBool true)])) in
  args (fst (grasp_edge None (1 # 2) st)) !! "arm" = Some (VStr "left").
Proof.
  intros st.
  apply (proj1 (arm_switch_on_press None (1 # 2) st (VBool true) (VStr "right")
                  ltac:(vm_compute; reflexivity) ltac:(vm_compute; reflexivity)));
    [vm_compute; reflexivity|vm_compute; reflexivity|reflexivity].
Defined.

(** At the start of a trial [last_grasp] is 0: a first press, from
    non-positive to positive, does not switch the arm. *)
Lemma first_press_does_not_switch :
  ~ flips_on_rising_edge None (1 # 2)
      (initial_state [("--switch-on-grasp", VBool true)]).
Proof.
  intros H.
  specialize (H ltac:(vm_compute; discriminate) ltac:(vm_compute; reflexivity)
                (VBool true) (VStr "right")
                ltac:(vm_compute; reflexivity) eq_refl
                ltac:(vm_compute; reflexivity)).
  vm_compute in H. discriminate.
Qed.

(** The camera toggle of lines 333-335 reads [args.toggle_camera_on_grasp],
    an attribute that no [add_argument] call creates: on a press the
    iteration raises [AttributeError], after the arm switch if there is
    one. *)
Lemma press_raises_attribute_error argv fault g st :
  args st = Argparse.parse_args argv \/
  (exists v, args st = <["arm" := v]> (Argparse.parse_args argv)) ->
  (last_grasp st < 0)%Q -> (0 < g)%Q ->
  snd (grasp_edge fault g st) = inl (AttributeError "toggle_camera_on_grasp").
Proof.
  intros Ha H1 H2. apply Qltb_lt in H1, H2.
  destruct (parse_args_lookup argv) as (_ & Harm & Hsw & Htg).
  assert (Hsw' : args st !! "switch_on_grasp"
                 = Some (VBool (bool_decide
                                  (is_Some (Argparse.given argv "--switch-on-grasp"))))).
  { destruct Ha as [->|[v ->]]; [|rewrite lookup_insert_ne by discriminate]; exact Hsw. }
  assert (Htg' : forall v, (<["arm" := v]> (args st)) !! "toggle_camera_on_grasp" = None).
  { intros v. rewrite lookup_insert_ne by discriminate.
    destruct Ha as [->|[w ->]]; [|rewrite lookup_insert_ne by discriminate]; exact Htg. }
  assert (Htg0 : args st !! "toggle_camera_on_grasp" = None).
  { destruct Ha as [->|[w ->]]; [|rewrite lookup_insert_ne by discriminate]; exact Htg. }
  assert (Harm' : exists a, args st !! "arm" = Some a).
  { destruct Ha as [->|[w ->]]; [eexists; exact Harm|].
    exists w. apply lookup_insert_eq. }
  destruct Harm' as [a Harm'].
  unfold grasp_edge, bind, gets, getattr, setattr, set_args. simpl.
  rewrite H1, H2. simpl. rewrite Hsw'. simpl.
  destruct (bool_decide _); simpl.
  - rewrite Harm'. simpl. rewrite Htg'. reflexivity.
  - rewrite Htg0. reflexivity.
Qed.

(** ** The end of a trial *)

Lemma not_record_nor_reset_quiet_prefix task robot env t st st' c a g :
  t_input t = Some (a, g) ->
  tick task robot env t st = (st', inr c) ->
  exists st5 st6,
    quiet not_record_nor_reset st st5 /\
    task_feedback (t_fault t) task robot (t_check t) st5 = (st6, inr tt) /\
    emit Render st6 = (st', inr tt) /\ c = Continue.
Proof.
  set (P := not_record_nor_reset). set (R := quiet P).
  assert (Hr : forall s, R s s) by apply quiet_refl.
  assert (Ht : forall x y z, R x y -> R y z -> R x z) by apply quiet_trans.
  assert (He : forall ev, P ev -> preserves R (emit ev)) by apply quiet_emit.
  assert (HP : forall ev, (forall r, ev <> SaveData r) -> ev <> EnvReset -> P ev)
    by (intros; split; assumption).
  intros Hin H. unfold tick in H.
  apply bind_inr in H as (x1 & st1 & H1 & H).
  apply bind_inr in H as (s & st2 & H2 & H).
  pose proof (input2action_value _ _ _ _ H2) as Hs. rewrite Hin in Hs. subst s.
  apply bind_inr in H as (x3 & st3 & H3 & H).
  apply bind_inr in H as (x4 & st4 & H4 & H).
  apply bind_inr in H as (x5 & st5 & H5 & H).
  apply bind_inr in H as ([] & st6 & H6 & H).
  apply bind_inr in H as (x7 & st7 & H7 & H).
  apply call_inr in H7 as [_ H7]. unfold ret in H.
  injection H as <- <-. destruct x7.
  exists st5, st6. split; [|split; [exact H6|split; [exact H7|reflexivity]]].
  pose proof (preserves_active_robot R Hr Ht env st) as Q1. rewrite H1 in Q1.
  pose proof (preserves_input2action R Hr Ht t st1) as Q2. rewrite H2 in Q2.
  pose proof (quiet_grasp_edge P (t_fault t) g
                ltac:(intros; apply HP; intros; discriminate) st2) as Q3.
  rewrite H3 in Q3.
  pose proof (preserves_assemble_and_step R P Hr Ht He
                ltac:(intros; apply HP; intros; discriminate)
                ltac:(intros; apply HP; intros; discriminate)
                (t_fault t) env a st3) as Q4.
  rewrite H4 in Q4.
  pose proof (preserves_safety_scan R P Hr Ht He
                ltac:(intros; apply HP; intros; discriminate)
                (t_fault t) env links2check (t_contacts t) st4) as Q5.
  rewrite H5 in Q5. simpl in *.
  eapply Ht; [exact Q1|]. eapply Ht; [exact Q2|]. eapply Ht; [exact Q3|].
  eapply Ht; [exact Q4|exact Q5].
Qed.

Lemma task_feedback_terminal fault task robot chk st st' u :
  In task scored_tasks -> trial_ended chk = true ->
  task_feedback fault task robot chk st = (st', inr u) ->
  exists pre,
    log st' = log st ++ pre ++
                [SaveData (record_of task robot chk); Render; Sleep 3;
                 DeviceResetInternal] /\
    Forall not_record_nor_reset pre /\
    csv st' = csv st ++ [record_of task robot chk].
Proof.
  intros Hin Hend H.
  assert (Hp : forall e, (forall r, e <> SaveData r) -> e <> EnvReset ->
                         not_record_nor_reset e) by (intros; split; assumption).
  destruct Hin as [<-|[<-|[<-|[]]]];
    unfold task_feedback, save_data, bind, call, raise, emit, append_csv, ret in H;
    simpl in H; rewrite Hend in H;
    repeat (match type of H with
            | context [bool_decide ?X] => destruct (bool_decide X)
            | context [if ?b then _ else _] => destruct b
            end; simpl in H; try discriminate);
    simplify_eq; simpl; rewrite <- !app_assoc; simpl;
    first
      [ exists [CheckSuccess];
        solve [repeat split; repeat constructor; try (apply Hp; intros; discriminate)]
      | exists [CheckSuccess; AddMarker GoalArrowGreen];
        solve [repeat split; repeat constructor; try (apply Hp; intros; discriminate)]
      | exists [CheckSuccess; AddMarker SuccessLabel];
        solve [repeat split; repeat constructor; try (apply Hp; intros; discriminate)] ].
Qed.

(** C1, as the script has it.  In an iteration of a scored task whose
    success check reports the end of the trial, exactly one record is
    written, then the frame is rendered, the loop sleeps 3 seconds and the
    internal state of the device is reset; the iteration ends with the
    render of line 425 and the inner loop goes on.  Nothing in the
    iteration resets the simulation. *)
Theorem terminal_tick_records_once task robot env t st st' c a g :
  In task scored_tasks ->
  t_input t = Some (a, g) ->
  trial_ended (t_check t) = true ->
  tick task robot env t st = (st', inr c) ->
  c = Continue /\
  exists pre,
    log st' = log st ++ pre ++
                [SaveData (record_of task robot (t_check t)); Render; Sleep 3;
                 DeviceResetInternal; Render] /\
    Forall not_record_nor_reset pre /\
    csv st' = csv st ++ [record_of task robot (t_check t)].
Proof.
  intros Htask Hin Hend H.
  destruct (not_record_nor_reset_quiet_prefix _ _ _ _ _ _ _ _ _ Hin H)
    as (st5 & st6 & [Hcsv (n1 & Hlog & Hn1)] & Hfb & Hr & ->).
  split; [reflexivity|].
  destruct (task_feedback_terminal _ _ _ _ _ _ _ Htask Hend Hfb)
    as (n2 & Hlog2 & Hn2 & Hcsv2).
  unfold emit in Hr. injection Hr as <-. simpl.
  exists (n1 ++ n2). split; [|split].
  - rewrite Hlog2, Hlog. rewrite <- !app_assoc. reflexivity.
  - apply Forall_app. split; assumption.
  - congruence.
Qed.

Lemma terminal_tick_records_once_witness :
  let t := plain_tick [1; 2]%Q (-1)%Q ended_check in
  let st' := fst (tick "DrawerPick" "Panda" demo_env t (initial_state [])) in
  csv st' = [record_of "DrawerPick" "Panda" ended_check].
Proof.
  intros t st'.
  destruct (terminal_tick_records_once "DrawerPick" "Panda" demo_env t
              (initial_state []) st' Continue [1; 2]%Q (-1)%Q)
    as (_ & pre & _ & _ & Hcsv);
    [right; right; left; reflexivity|reflexivity|reflexivity
    |vm_compute; reflexivity|exact Hcsv].
Defined.

(** After the record the loop steps the same simulation again: the
    iteration makes no [env.reset()] and does not leave the inner loop. *)
Lemma terminal_tick_does_not_reset :
  ~ terminal_tick_resets "DrawerPick" "Panda" demo_env
      (plain_tick [1; 2]%Q (-1)%Q ended_check) (initial_state []).
Proof.
  intros H.
  destruct (H eq_refl
              (fst (tick "DrawerPick" "Panda" demo_env
                      (plain_tick [1; 2]%Q (-1)%Q ended_check) (initial_state [])))
              Continue ltac:(vm_compute; reflexivity))
    as (new & Hlog & _ & _ & _ & [Hin|Hc]); [|discriminate].
  vm_compute in Hlog. subst new.
  simpl in Hin. repeat (destruct Hin as [Hin|Hin]; [discriminate|]). exact Hin.
Qed.

(** ** The PandaWrist profile *)

(** C8.  A profile is only constructed when the damping vector and the
    initial joint angles both have as many entries as the robot has joints,
    so every constructed profile has vectors of that length and a
    mismatched configuration fails at construction; the damping values and
    the initial joint angles of [PandaWrist] both have 9 entries and make a
    profile of a robot with 9 joints. *)
Theorem profile_vectors_match_joint_count :
  (forall joint_count damping init_qpos p,
     construct_profile joint_count damping init_qpos = Some p ->
     length (p_damping p) = p_joint_count p /\
     length (p_init_qpos p) = p_joint_count p /\
     p_joint_count p = joint_count) /\
  (forall joint_count damping init_qpos,
     length damping <> joint_count \/ length init_qpos <> joint_count ->
     construct_profile joint_count damping init_qpos = None) /\
  length PandaWrist.damping = 9%nat /\
  length PandaWrist.init_qpos = 9%nat /\
  construct_profile 9 PandaWrist.damping PandaWrist.init_qpos
    = Some {| p_joint_count := 9; p_damping := PandaWrist.damping;
              p_init_qpos := PandaWrist.init_qpos |}.
Proof.
  split; [|split; [|repeat split]].
  - intros n d q p H. unfold construct_profile in H.
    destruct (length d =? n)%nat eqn:E1; [|discriminate].
    destruct (length q =? n)%nat eqn:E2; [|discriminate].
    apply Nat.eqb_eq in E1, E2. simpl in H. injection H as <-. simpl. auto.
  - intros n d q H. unfold construct_profile.
    destruct (length d =? n)%nat eqn:E1; [|reflexivity].
    destruct (length q =? n)%nat eqn:E2; [|reflexivity].
    apply Nat.eqb_eq in E1, E2. destruct H; contradiction.
Qed.

(** Eight damping values for nine joints are refused. *)
Lemma profile_vectors_match_joint_count_witness :
  construct_profile 9 (tl PandaWrist.damping) PandaWrist.init_qpos = None.
Proof.
  apply (proj1 (proj2 profile_vectors_match_joint_count)).
  left. simpl. discriminate.
Defined.

(** * Further properties of the script *)

(** ** The acknowledgment prompt *)

Lemma handle_events_exit batch ui :
  handle_events batch ui = None <-> Exists (fun e => fatal e = true) batch.
Proof.
  revert ui. induction batch as [|e rest IH]; intros ui; simpl.
  - split; [discriminate|]. intros H. inversion H.
  - destruct e as [|key|]; simpl.
    + split; [intros _; left; reflexivity|reflexivity].
    + destruct (key =? K_ESCAPE) eqn:E.
      * split; [intros _; left; exact E|reflexivity].
      * rewrite IH. split; [intros H; right; exact H|].
        intros H. inversion H; subst; [simpl in *; congruence|assumption].
    + rewrite IH. split; [intros H; right; exact H|].
      intros H. inversion H; subst; [discriminate|assumption].
Qed.

Lemma handle_events_value batch ui r :
  handle_events batch ui = Some r ->
  r = match last_key batch with Some k => Some k | None => ui end.
Proof.
  revert ui. induction batch as [|e rest IH]; intros ui; simpl.
  - congruence.
  - destruct e as [|key|]; [discriminate| |apply IH].
    destruct (key =? K_ESCAPE); [discriminate|].
    intros H. apply IH in H. destruct (last_key rest); assumption.
Qed.

Lemma handle_events_no_exit batch ui :
  Forall (fun e => fatal e = false) batch ->
  handle_events batch ui
    = Some (match last_key batch with Some k => Some k | None => ui end).
Proof.
  intros H. destruct (handle_events batch ui) as [r|] eqn:E.
  - f_equal. eapply handle_events_value, E.
  - apply handle_events_exit in E. exfalso.
    apply Exists_exists in E as (e & Hin & He).
    rewrite Forall_forall in H. specialize (H e Hin). congruence.
Qed.

Lemma silent_last_key batch :
  silent batch <-> Forall (fun e => fatal e = false) batch /\ last_key batch = None.
Proof.
  induction batch as [|e rest IH]; simpl.
  - split; [intros _; split; [constructor|reflexivity]|constructor].
  - split.
    + intros H. inversion H; subst. apply IH in H3 as [H3 H4].
      split; [constructor; [reflexivity|assumption]|assumption].
    + intros [H1 H2]. inversion H1; subst. destruct e as [|key|].
      * discriminate.
      * destruct (last_key rest); discriminate.
      * constructor; [reflexivity|]. apply IH. split; assumption.
Qed.

Lemma prompt_skips_silent pre batches :
  Forall silent pre ->
  prompt_user_for_input (pre ++ batches) = prompt_user_for_input batches.
Proof.
  induction 1 as [|b pre Hb _ IH]; simpl; [reflexivity|].
  apply silent_last_key in Hb as [Hf Hl].
  rewrite (handle_events_no_exit b None Hf), Hl. exact IH.
Qed.

(** The prompt returns exactly when some batch of events holds a key press
    and neither that batch, before or after the key press, nor an earlier
    batch holds a window close or the Escape key; earlier batches hold no
    key press at all.  It then returns with the last key of that batch. *)
Theorem prompt_returns_iff (batches : list (list PgEvent)) (key : Z) :
  prompt_user_for_input batches = Returned key <->
  exists pre batch post,
    batches = pre ++ batch :: post /\ Forall silent pre /\
    Forall (fun e => fatal e = false) batch /\ last_key batch = Some key.
Proof.
  split.
  - induction batches as [|b rest IH]; simpl; [discriminate|].
    destruct (handle_events b None) as [[k|]|] eqn:E.
    + intros H. injection H as ->. exists [], b, rest.
      split; [reflexivity|]. split; [constructor|].
      split.
      * apply Forall_forall. intros e Hin. destruct (fatal e) eqn:Hf; [|reflexivity].
        assert (Hx : handle_events b None = None)
          by (apply handle_events_exit, Exists_exists; eauto).
        congruence.
      * apply handle_events_value in E. destruct (last_key b); congruence.
    + intros H. destruct (IH H) as (pre & batch & post & -> & Hpre & Hb & Hk).
      exists (b :: pre), batch, post. split; [reflexivity|].
      split; [|split; assumption]. constructor; [|assumption].
      apply silent_last_key. split.
      * apply Forall_forall. intros e Hin. destruct (fatal e) eqn:Hf; [|reflexivity].
        assert (Hx : handle_events b None = None)
          by (apply handle_events_exit, Exists_exists; eauto).
        congruence.
      * apply handle_events_value in E. destruct (last_key b); congruence.
    + discriminate.
  - intros (pre & batch & post & -> & Hpre & Hb & Hk).
    rewrite prompt_skips_silent by assumption. simpl.
    rewrite (handle_events_no_exit batch None Hb), Hk. reflexivity.
Qed.

(** A window close or the Escape key ends the process, also when a key
    was pressed earlier in the same batch of events: the [for] loop does
    not stop at the key press. *)
Theorem prompt_exits_on_quit_or_escape pre batch post :
  Forall silent pre ->
  Exists (fun e => fatal e = true) batch ->
  prompt_user_for_input (pre ++ batch :: post) = Exited.
Proof.
  intros Hpre Hb. rewrite prompt_skips_silent by assumption. simpl.
  apply (handle_events_exit batch None) in Hb. rewrite Hb. reflexivity.
Qed.

(** Mouse motion, then the key 97 followed by Escape in one batch. *)
Lemma prompt_exits_on_quit_or_escape_witness :
  prompt_user_for_input
    ([PgOther; PgOther] :: [PgKeyDown 97; PgOther; PgKeyDown K_ESCAPE] :: [])
    = Exited.
Proof.
  apply (prompt_exits_on_quit_or_escape [[PgOther; PgOther]]
           [PgKeyDown 97; PgOther; PgKeyDown K_ESCAPE] []).
  - repeat constructor.
  - right. right. left. reflexivity.
Defined.

Lemma handle_events_filter batch ui :
  handle_events (List.filter (fun e => negb (is_other e)) batch) ui
    = handle_events batch ui.
Proof.
  revert ui. induction batch as [|e rest IH]; intros ui; simpl; [reflexivity|].
  destruct e as [|key|]; simpl; [reflexivity| |apply IH].
  destruct (key =? K_ESCAPE); [reflexivity|apply IH].
Qed.

(** Events other than a window close and a key press have no effect on
    the prompt: dropping them from every batch changes nothing. *)
Theorem prompt_ignores_other_events (batches : list (list PgEvent)) :
  prompt_user_for_input (map (List.filter (fun e => negb (is_other e))) batches)
    = prompt_user_for_input batches.
Proof.
  induction batches as [|b rest IH]; simpl; [reflexivity|].
  rewrite handle_events_filter, IH. reflexivity.
Qed.

(** Two key presses in the second batch: the prompt returns with the
    second key. *)
Lemma prompt_returns_iff_witness :
  prompt_user_for_input ([PgOther] :: [PgKeyDown 97; PgKeyDown 98] :: [[PgQuit]])
    = Returned 98.
Proof.
  apply (proj2 (prompt_returns_iff _ 98)).
  exists [[PgOther]], [PgKeyDown 97; PgKeyDown 98], [[PgQuit]].
  repeat split; repeat constructor.
Defined.

(** ** More on the contact scan *)

(** The order of the two geometries of a contact does not matter. *)
Theorem flagged_symmetric env links con :
  flagged env links {| geom1 := geom2 con; geom2 := geom1 con; pos := pos con |}
    = flagged env links con.
Proof.
  unfold flagged. simpl.
  destruct (name_in (geom_id2name env (geom1 con)) links),
           (name_in (geom_id2name env (geom2 con)) links); reflexivity.
Qed.

(** ** A grasp press in the loop *)

(** When [args] has no attribute [toggle_camera_on_grasp], a grasp press
    (previous grasp negative, current one positive) ends the iteration with
    [AttributeError] before [last_grasp] is updated and before any call is
    made; the arm has been switched by then if [--switch-on-grasp] is
    set. *)
Theorem press_ends_iteration fault g st sw arm :
  toggle_absent st ->
  args st !! "switch_on_grasp" = Some sw ->
  args st !! "arm" = Some arm ->
  (last_grasp st < 0)%Q -> (0 < g)%Q ->
  exists st',
    grasp_edge fault g st = (st', inl (AttributeError "toggle_camera_on_grasp")) /\
    log st' = log st /\ csv st' = csv st /\ last_grasp st' = last_grasp st /\
    cam_id st' = cam_id st /\
    args st' = (if truthy sw
                then <["arm" := VStr (if py_eq arm (VStr "right")
                                      then "left" else "right")]> (args st)
                else args st).
Proof.
  unfold toggle_absent. intros Htg Hsw Harm H1 H2. apply Qltb_lt in H1, H2.
  unfold grasp_edge, bind, gets, getattr, setattr, set_args. simpl.
  rewrite H1, H2. simpl. rewrite Hsw. simpl.
  destruct (truthy sw); simpl.
  - rewrite Harm. simpl. rewrite lookup_insert_ne by discriminate. rewrite Htg.
    eexists. split; [reflexivity|]. simpl. auto.
  - rewrite Htg. eexists. split; [reflexivity|]. auto.
Qed.

Lemma press_ends_iteration_witness :
  let st := fst (control_loop "DrawerPick" "Panda" demo_env true
                   (grasp_script [-1]%Q)
                   (initial_state [("--switch-on-grasp", VBool true)])) in
  exists st',
    grasp_edge None 1 st = (st', inl (AttributeError "toggle_camera_on_grasp")) /\
    args st' !! "arm" = Some (VStr "left").
Proof.
  intros st.
  destruct (press_ends_iteration None 1 st (VBool true) (VStr "right"))
    as (st' & H & _ & _ & _ & _ & Ha);
    [vm_compute; reflexivity|vm_compute; reflexivity|vm_compute; reflexivity
    |vm_compute; reflexivity|vm_compute; reflexivity|].
  exists st'. split; [exact H|]. rewrite Ha. simpl. apply lookup_insert_eq.
Defined.

(** ** The robot of line 317 *)

Lemma active_robot_out_of_range env st config :
  args st !! "config" = Some config ->
  config <> VStr "bimanual" ->
  args st !! "arm" = Some (VStr "left") ->
  (robots env <= 1)%nat ->
  active_robot env st = (st, inl IndexError).
Proof.
  intros Hc Hb Ha Hr. unfold active_robot, bind, getattr, index.
  rewrite Hc. apply py_eq_str_false in Hb. rewrite Hb, Ha. simpl.
  destruct (1 <? robots env)%nat eqn:E; [|reflexivity].
  apply Nat.ltb_lt in E. lia.
Qed.

Lemma left_arm_pair_aborts task p st config :
  args st !! "config" = Some config ->
  config <> VStr "bimanual" ->
  args st !! "arm" = Some (VStr "left") ->
  (robots (pp_env p) <= 1)%nat ->
  pp_ticks p <> [] ->
  pp_close_raises p = false ->
  (forall t, tick task (pp_robot p) (pp_env p) t st = (st, inl IndexError)) /\
  exists st' e,
    run_pair task p st = (st', inr (Aborted e)) /\
    args st' = args st /\
    logs (fun ev => forall a, ev <> Step a) st st'.
Proof.
  intros Hc Hb Ha Hr Hne Hcl.
  assert (Htick : forall s t, args s = args st ->
            tick task (pp_robot p) (pp_env p) t s = (s, inl IndexError)).
  { intros s t Hs. unfold tick.
    apply bind_err, (active_robot_out_of_range _ _ config); rewrite ?Hs; assumption. }
  split; [intros t; apply Htick; reflexivity|].
  destruct (pp_ticks p) as [|t rest] eqn:Hticks; [congruence|].
  set (P := fun ev : Event => forall a, ev <> Step a).
  set (R := fun s s' : State => args s' = args s /\ logs P s s').
  assert (Hsetup : R st (fst (trial_setup (t_fault t) (pp_env p) st))).
  { apply (preserves_trial_setup R P).
    - intros s. split; [reflexivity|].
      exists []. split; [now rewrite app_nil_r|constructor].
    - intros a b c [A1 (n1 & H1 & F1)] [A2 (n2 & H2 & F2)]. split; [congruence|].
      exists (n1 ++ n2).
      split; [rewrite H2, H1; now rewrite app_assoc|apply Forall_app; split; assumption].
    - intros c s. split; [reflexivity|].
      exists []. split; [simpl; now rewrite app_nil_r|constructor].
    - intros c s. split; [reflexivity|].
      exists []. split; [simpl; now rewrite app_nil_r|constructor].
    - intros c s. split; [reflexivity|].
      exists []. split; [simpl; now rewrite app_nil_r|constructor].
    - intros ev Hev s. split; [reflexivity|].
      exists [ev]. split; [reflexivity|repeat constructor; exact Hev].
    - intros a; discriminate.
    - intros a; discriminate.
    - intros a; discriminate. }
  assert (Hend : forall s, R st s ->
            R st (fst (emit EnvClose s))).
  { intros s [A (n & Hn & Fn)]. split; [exact A|]. exists (n ++ [EnvClose]).
    split; [simpl; rewrite Hn; now rewrite app_assoc|].
    apply Forall_app. split; [assumption|repeat constructor; intros a; discriminate]. }
  unfold run_pair. rewrite Hticks. simpl. unfold bind at 1.
  destruct (trial_setup (t_fault t) (pp_env p) st) as [s1 [e|u]] eqn:Hs.
  - rewrite Hcl. simpl in Hsetup. destruct (Hend s1 Hsetup) as [A L].
    eexists _, e. split; [reflexivity|]. split; [exact A|exact L].
  - destruct u. simpl in Hsetup. destruct Hsetup as [Hargs Hlogs].
    unfold bind at 1. rewrite (Htick s1 t Hargs). rewrite Hcl.
    destruct (Hend s1 (conj Hargs Hlogs)) as [A L].
    eexists _, IndexError. split; [reflexivity|]. split; [exact A|exact L].
Qed.

(** With the left arm selected and an environment of a single robot
    (every environment of the session is made for one robot name),
    [env.robots[args.arm == "left"]] is out of range: an iteration raises
    [IndexError] before the device is read and changes nothing, and a pair
    is aborted without a single simulation step, leaving [args] as it
    was. *)
Theorem left_arm_single_robot_aborts task p st config :
  args st !! "config" = Some config ->
  config <> VStr "bimanual" ->
  args st !! "arm" = Some (VStr "left") ->
  (robots (pp_env p) <= 1)%nat ->
  pp_ticks p <> [] ->
  pp_close_raises p = false ->
  (forall t, tick task (pp_robot p) (pp_env p) t st = (st, inl IndexError)) /\
  exists st' e,
    run_pair task p st = (st', inr (Aborted e)) /\
    args st' = args st /\
    logs (fun ev => forall a, ev <> Step a) st st'.
Proof. apply left_arm_pair_aborts. Qed.

Lemma left_arm_single_robot_aborts_witness :
  exists st' e,
    run_pair "Bookshelf"
      {| pp_robot := "Panda";
         pp_env := {| action_dim := 7; robots := 1; camera_names := ["cabinetview"];
                      geom_id2name := fun _ => None |};
         pp_ticks := grasp_script [-1; -1]%Q; pp_close_raises := false;
              pp_prompt := key_pressed; pp_setup_fault := None;
              pp_csv_exists := true |}
      (fst (setattr "config" VNone (initial_state [("--arm", VStr "left")])))
      = (st', inr (Aborted e)) /\
    args st'
      = args (fst (setattr "config" VNone (initial_state [("--arm", VStr "left")]))) /\
    logs (fun ev => forall a, ev <> Step a)
      (fst (setattr "config" VNone (initial_state [("--arm", VStr "left")]))) st'.
Proof.
  apply (left_arm_single_robot_aborts "Bookshelf" _ _ VNone).
  - vm_compute; reflexivity.
  - discriminate.
  - vm_compute; reflexivity.
  - simpl. lia.
  - discriminate.
  - reflexivity.
Defined.

(** ** More frame relations *)

Lemma logs_refl P st : logs P st st.
Proof. exists []. split; [now rewrite app_nil_r|constructor]. Qed.

Lemma logs_trans P a b c : logs P a b -> logs P b c -> logs P a c.
Proof.
  intros (n1 & H1 & F1) (n2 & H2 & F2). exists (n1 ++ n2).
  split; [rewrite H2, H1; now rewrite app_assoc|apply Forall_app; split; assumption].
Qed.

Lemma logs_emit P ev : P ev -> preserves (logs P) (emit ev).
Proof. intros H st. exists [ev]. split; [reflexivity|repeat constructor; exact H]. Qed.

Lemma logs_local P (m : M unit) :
  (forall st, log (fst (m st)) = log st) -> preserves (logs P) m.
Proof. intros H st. exists []. split; [rewrite H; now rewrite app_nil_r|constructor]. Qed.

Lemma same_csv_trans a b c : same_csv a b -> same_csv b c -> same_csv a c.
Proof. unfold same_csv. congruence. Qed.

Lemma rows_added_refl task robot st : rows_added task robot st st.
Proof. exists []. split; [now rewrite app_nil_r|constructor]. Qed.

Lemma rows_added_trans task robot a b c :
  rows_added task robot a b -> rows_added task robot b c -> rows_added task robot a c.
Proof.
  intros (n1 & H1 & F1) (n2 & H2 & F2). exists (n1 ++ n2).
  split; [rewrite H2, H1; now rewrite app_assoc|apply Forall_app; split; assumption].
Qed.

Lemma rows_added_local task robot (m : M unit) :
  (forall st, csv (fst (m st)) = csv st) -> preserves (rows_added task robot) m.
Proof. intros H st. exists []. split; [rewrite H; now rewrite app_nil_r|constructor]. Qed.

Lemma rows_added_append task robot trial success success_time disturbance :
  preserves (rows_added task robot)
    (append_csv {| r_subject_name := subject_name; r_task := task; r_robot := robot;
                   r_trial := trial; r_success := success;
                   r_success_time := success_time; r_disturbance := disturbance |}).
Proof. intros st. eexists [_]. split; [reflexivity|repeat constructor]. Qed.

Lemma camera_untouched_refl st : camera_untouched st st.
Proof. intros H. split; [exact H|apply logs_refl]. Qed.

Lemma camera_untouched_trans a b c :
  camera_untouched a b -> camera_untouched b c -> camera_untouched a c.
Proof.
  intros H1 H2 Ha. destruct (H1 Ha) as [Hb L1]. destruct (H2 Hb) as [Hc L2].
  split; [exact Hc|eapply logs_trans; eassumption].
Qed.

Lemma camera_untouched_local (m : M unit) :
  (forall st, args (fst (m st)) = args st /\ log (fst (m st)) = log st) ->
  preserves camera_untouched m.
Proof.
  intros H st Ha. destruct (H st) as [H1 H2]. unfold toggle_absent. rewrite H1.
  split; [exact Ha|]. exists []. split; [rewrite H2; now rewrite app_nil_r|constructor].
Qed.

Lemma camera_untouched_emit ev :
  (forall c, ev <> SetCamera c) -> preserves camera_untouched (emit ev).
Proof. intros H st Ha. split; [exact Ha|]. apply (logs_emit _ ev H st). Qed.

Lemma camera_untouched_config : preserves camera_untouched (setattr "config" VNone).
Proof.
  intros st Ha. split; [|exists []; split; [simpl; now rewrite app_nil_r|constructor]].
  unfold toggle_absent. simpl. now rewrite lookup_insert_ne.
Qed.

Lemma camera_untouched_grasp_edge fault g :
  preserves camera_untouched (grasp_edge fault g).
Proof.
  intros st Ha. unfold toggle_absent in *.
  unfold grasp_edge, bind, gets, getattr, setattr, set_args. simpl.
  destruct (Qltb (last_grasp st) 0 && Qltb 0 g); simpl;
    [|split; [exact Ha|apply (logs_local _ (set_last_grasp g)); reflexivity]].
  destruct (args st !! "switch_on_grasp") as [sw|]; simpl;
    [|split; [exact Ha|apply logs_refl]].
  destruct (truthy sw); simpl.
  - destruct (args st !! "arm") as [arm|]; simpl;
      [|split; [exact Ha|apply logs_refl]].
    rewrite lookup_insert_ne by discriminate. rewrite Ha. simpl.
    split; [now rewrite lookup_insert_ne by discriminate|].
    exists []. split; [simpl; now rewrite app_nil_r|constructor].
  - rewrite Ha. simpl. split; [exact Ha|apply logs_refl].
Qed.

#[local] Hint Resolve logs_refl logs_trans logs_emit same_csv_trans
  rows_added_refl rows_added_trans rows_added_append
  camera_untouched_refl camera_untouched_trans camera_untouched_emit
  camera_untouched_config camera_untouched_grasp_edge : frame.
#[local] Hint Extern 1 (preserves (logs _) _) =>
  (apply logs_local; intros ?; reflexivity) : frame.
#[local] Hint Extern 1 (preserves same_csv _) => (intros ?; reflexivity) : frame.
#[local] Hint Extern 1 (same_csv _ _) => reflexivity : frame.
#[local] Hint Extern 1 (preserves (rows_added _ _) _) =>
  (apply rows_added_local; intros ?; reflexivity) : frame.
#[local] Hint Extern 1 (preserves camera_untouched _) =>
  (apply camera_untouched_local; intros ?; split; reflexivity) : frame.
#[local] Hint Extern 1 (_ <> _) => discriminate : frame.
#[local] Hint Extern 1 (forall _, _ <> _) => (intros ?; discriminate) : frame.
#[local] Hint Extern 1 (ready_event _) => reflexivity : frame.

(** ** The camera *)

Lemma camera_untouched_task_feedback fault task robot chk :
  preserves camera_untouched (task_feedback fault task robot chk).
Proof.
  unfold task_feedback, save_data.
  repeat (apply preserves_if; frame_with (fun e : Event => forall c, e <> SetCamera c)).
Qed.

Lemma camera_untouched_robots_loop task pairs :
  preserves camera_untouched (robots_loop task pairs).
Proof.
  apply (preserves_robots_loop camera_untouched
           (fun e => forall c, e <> SetCamera c) (fun _ => True) task);
    eauto with frame.
  - intros; apply camera_untouched_task_feedback.
  - apply Forall_forall. intros p _. apply Forall_forall. intros t _ a g _. exact I.
Qed.

Lemma camera_untouched_tasks_loop plans :
  preserves camera_untouched (tasks_loop plans).
Proof.
  apply (preserves_tasks_loop camera_untouched
           (fun e => forall c, e <> SetCamera c) (fun _ => True));
    eauto with frame.
  - intros task pairs _. apply camera_untouched_robots_loop.
  - apply Forall_forall. intros tp _. apply Forall_forall. intros p _. exact I.
Qed.

(** Whatever the command line and whatever happens in the session, the
    viewer camera is never switched: [args] never has the attribute
    [toggle_camera_on_grasp] that line 333 reads, so [set_camera] of
    line 335 is never called. *)
Theorem camera_is_never_switched argv plans :
  toggle_absent (fst (tasks_loop plans (initial_state argv))) /\
  Forall (fun e => forall c, e <> SetCamera c)
    (log (fst (tasks_loop plans (initial_state argv)))).
Proof.
  destruct (camera_untouched_tasks_loop plans (initial_state argv))
    as [Ha (new & Hl & Hf)].
  - apply parse_args_lookup.
  - split; [exact Ha|]. rewrite Hl. exact Hf.
Qed.

(** ** The life cycle of the simulation *)

Lemma lifecycle_app ph l1 l2 :
  lifecycle ph (l1 ++ l2) =
    match lifecycle ph l1 with
    | Some ph' => lifecycle ph' l2
    | None => None
    end.
Proof.
  revert ph. induction l1 as [|e r IH]; intros ph; simpl; [reflexivity|].
  destruct (phase_step ph e); [apply IH|reflexivity].
Qed.

Lemma lifecycle_ready l : Forall ready_event l -> lifecycle Ready l = Some Ready.
Proof.
  induction 1 as [|e r He _ IH]; simpl; [reflexivity|].
  unfold ready_event in He. rewrite He. exact IH.
Qed.

Lemma ready_task_feedback fault task robot chk :
  preserves (logs ready_event) (task_feedback fault task robot chk).
Proof.
  unfold task_feedback, save_data.
  repeat (apply preserves_if; frame_with ready_event).
Qed.

Lemma ready_grasp_edge fault g : preserves (logs ready_event) (grasp_edge fault g).
Proof. unfold grasp_edge, setattr, py_mod. frame_with ready_event. Qed.

Lemma ready_tick task robot env t :
  preserves (logs ready_event) (tick task robot env t).
Proof.
  apply (preserves_tick (logs ready_event) ready_event (fun _ => True) task);
    eauto with frame.
  - intros; apply ready_grasp_edge.
  - intros; apply ready_task_feedback.
  - intros a g _. exact I.
Qed.

Lemma ready_control_loop task robot env script new_trial :
  preserves (logs ready_event) (control_loop task robot env new_trial script).
Proof.
  apply (preserves_control_loop (logs ready_event) ready_event (fun _ => True) task);
    eauto with frame.
  - intros; apply ready_grasp_edge.
  - intros; apply ready_task_feedback.
  - apply Forall_forall. intros t _ a g _. exact I.
Qed.

Lemma bind_assoc {A B C} (m : M A) (k : A -> M B) (h : B -> M C) st :
  bind (bind m k) h st = bind m (fun a => bind (k a) h) st.
Proof. unfold bind. destruct (m st) as [s [e|a]]; reflexivity. Qed.

Lemma first_call_log {A} fault line ev (k : unit -> M A) P st :
  (forall u, preserves (logs P) (k u)) ->
  exists new,
    log (fst (bind (call fault line ev) k st)) = log st ++ new /\
    (new = [] \/ exists tl, new = ev :: tl /\ Forall P tl).
Proof.
  intros Hk. unfold bind, call. case_bool_decide; simpl.
  - exists []. split; [now rewrite app_nil_r|left; reflexivity].
  - match goal with |- context [k tt ?s] => destruct (Hk tt s) as (tl & Hl & Hf) end.
    exists (ev :: tl). split; [|right; exists tl; auto].
    rewrite Hl. simpl. rewrite <- app_assoc. reflexivity.
Qed.

(** A pair starts with [env.reset()], unless nothing is called at all. *)
Lemma control_loop_starts_with_reset task robot env script st :
  exists new,
    log (fst (control_loop task robot env true script st)) = log st ++ new /\
    (new = [] \/ exists tl, new = EnvReset :: tl /\ Forall ready_event tl).
Proof.
  destruct script as [|t rest]; simpl.
  - exists []. split; [now rewrite app_nil_r|left; reflexivity].
  - unfold trial_setup. rewrite bind_assoc. apply first_call_log. intros u.
    apply preserves_bind; [eauto with frame|frame_with ready_event|intros _].
    apply preserves_bind; [eauto with frame|apply ready_tick|intros c].
    apply ready_control_loop.
Qed.

Lemma run_pair_lifecycle task p st :
  exists new ph,
    log (fst (run_pair task p st)) = log st ++ new /\
    lifecycle Made new = Some ph /\
    (forall e, snd (run_pair task p st) = inr (Aborted e) -> ph = Closed).
Proof.
  destruct (control_loop_starts_with_reset task (pp_robot p) (pp_env p) (pp_ticks p) st)
    as (new & Hl & Hnew).
  assert (Hph : exists ph, lifecycle Made new = Some ph /\ ph <> Closed).
  { destruct Hnew as [->|(tl & -> & Hf)]; [exists Made; split; [reflexivity|discriminate]|].
    exists Ready. simpl. split; [apply lifecycle_ready, Hf|discriminate]. }
  destruct Hph as (ph & Hph & Hne).
  unfold run_pair.
  destruct (control_loop _ _ _ _ _ st) as [st1 [e|u]]; simpl in *.
  - unfold bind, call. destruct (pp_close_raises p); simpl.
    + exists new, ph. split; [exact Hl|]. split; [exact Hph|]. intros e'; discriminate.
    + exists (new ++ [EnvClose]), Closed. split; [rewrite Hl; now rewrite app_assoc|].
      split; [|reflexivity]. rewrite lifecycle_app, Hph.
      destruct ph; [congruence|reflexivity|reflexivity].
  - exists new, ph. split; [exact Hl|]. split; [exact Hph|]. intros e'; discriminate.
Qed.

Lemma lifecycle_made l : Forall made_event l -> lifecycle Made l = Some Made.
Proof.
  induction 1 as [|e r He _ IH]; simpl; [reflexivity|].
  unfold made_event in He. rewrite He. exact IH.
Qed.

Lemma prompt_result text batches st :
  prompt text batches st =
    (fst (emit (Prompt text) st),
     match prompt_user_for_input batches with
     | Returned _ => inr true
     | Exited => inl SystemExit
     | Waiting => inr false
     end).
Proof.
  unfold prompt, bind, emit.
  destruct (prompt_user_for_input batches); reflexivity.
Qed.

Lemma robots_loop_cons task p rest st :
  robots_loop task (p :: rest) st =
    match pair_setup task p st with
    | (s, inr true) =>
        match run_pair task p s with
        | (s2, inr (Aborted _)) => robots_loop task rest s2
        | (s2, inr Running) => (s2, inr (InPair task (pp_robot p)))
        | (s2, inl e) => (s2, inl e)
        end
    | (s, inr false) => (s, inr AtPrompt)
    | (s, inl e) => (s, inl e)
    end.
Proof.
  simpl. unfold bind at 1.
  destruct (pair_setup task p st) as [s [e|[|]]]; try reflexivity.
  unfold bind at 1. destruct (run_pair task p s) as [s2 [e|[e|]]]; reflexivity.
Qed.

Lemma tasks_loop_cons tp rest st :
  tasks_loop (tp :: rest) st =
    match task_names (tp_task tp) with
    | None => (st, inl (KeyError (tp_task tp)))
    | Some name =>
        match prompt ("The next task is to " ++ name ++
                      ". Check out the task summary, then press any key to continue.")
                (tp_prompt tp) st with
        | (s, inr true) =>
            match robots_loop (tp_task tp) (tp_pairs tp) s with
            | (s2, inr Finished) => tasks_loop rest s2
            | (s2, r) => (s2, r)
            end
        | (s, inr false) => (s, inr AtPrompt)
        | (s, inl e) => (s, inl e)
        end
    end.
Proof.
  simpl. destruct (task_names (tp_task tp)) as [name|]; [|reflexivity].
  unfold bind at 1. destruct (prompt _ _ st) as [s [e|[|]]]; try reflexivity.
  unfold bind at 1.
  destruct (robots_loop _ _ s) as [s2 [e|[|task robot|]]]; reflexivity.
Qed.

Lemma made_device_and_header task p :
  preserves (logs made_event) (device_and_header task p).
Proof.
  apply (preserves_device_and_header (logs made_event) made_event);
    eauto with frame; intros; reflexivity.
Qed.

(** What precedes the [try]: a prompt while no simulation is open, then the
    new simulation, on which only the device is set up. *)
Lemma pair_setup_lifecycle task p st :
  exists new ph,
    log (fst (pair_setup task p st)) = log st ++ new /\
    lifecycle Closed new = Some ph /\
    (snd (pair_setup task p st) = inr true -> ph = Made) /\
    (snd (pair_setup task p st) = inr false -> ph = Closed).
Proof.
  destruct (pair_setup task p st) as [s r] eqn:E. simpl.
  unfold pair_setup in E. unfold bind at 1 in E. rewrite prompt_result in E.
  set (text := "Press any key to begin the next scenerio.") in *.
  destruct (prompt_user_for_input (pp_prompt p)).
  - rewrite (bind_ok (setattr "config" VNone) _ _
               (fst (setattr "config" VNone (fst (emit (Prompt text) st)))) tt eq_refl)
      in E.
    unfold bind at 1 in E. unfold call at 1 in E.
    destruct (bool_decide (pp_setup_fault p = Some 241%nat)).
    + injection E as <- <-. exists [Prompt text], Closed. simpl.
      split; [reflexivity|]. split; [reflexivity|]. split; discriminate.
    + match type of E with context [emit ?ev ?s0] =>
        set (s3 := fst (emit ev s0)) in *;
        change (emit ev s0) with (s3, @inr Exn unit tt) in E
      end.
      cbv iota beta in E.
      assert (H3 : log s3 = log st ++ [Prompt text; MakeEnv task (pp_robot p)])
        by (subst s3; simpl; now rewrite <- app_assoc).
      clearbody s3.
      pose proof (made_device_and_header task p s3) as (tl & Hl & Hf).
      unfold bind in E. destruct (device_and_header task p s3) as [s4 [e|u]];
        injection E as <- <-; simpl in Hl.
      * exists ([Prompt text; MakeEnv task (pp_robot p)] ++ tl), Made.
        split; [rewrite Hl, H3; now rewrite <- app_assoc|].
        split; [simpl; apply lifecycle_made, Hf|]. split; [reflexivity|discriminate].
      * exists ([Prompt text; MakeEnv task (pp_robot p)] ++ tl), Made.
        split; [rewrite Hl, H3; now rewrite <- app_assoc|].
        split; [simpl; apply lifecycle_made, Hf|]. split; [reflexivity|discriminate].
  - injection E as <- <-. exists [Prompt text], Closed. simpl.
    split; [reflexivity|]. split; [reflexivity|]. split; discriminate.
  - injection E as <- <-. exists [Prompt text], Closed. simpl.
    split; [reflexivity|]. split; [reflexivity|]. split; [discriminate|reflexivity].
Qed.

Lemma robots_loop_lifecycle task pairs st :
  exists new ph,
    log (fst (robots_loop task pairs st)) = log st ++ new /\
    lifecycle Closed new = Some ph /\
    (snd (robots_loop task pairs st) = inr Finished -> ph = Closed) /\
    (snd (robots_loop task pairs st) = inr AtPrompt -> ph = Closed).
Proof.
  revert st. induction pairs as [|p rest IH]; intros st.
  - exists [], Closed. simpl. split; [now rewrite app_nil_r|]. repeat split.
  - rewrite robots_loop_cons.
    destruct (pair_setup_lifecycle task p st) as (pre & ph1 & H1 & L1 & T1 & F1).
    destruct (pair_setup task p st) as [st1 [e|[|]]]; simpl in *.
    + exists pre, ph1. split; [exact H1|]. split; [exact L1|]. split; discriminate.
    + specialize (T1 eq_refl). subst ph1.
      destruct (run_pair_lifecycle task p st1) as (n2 & ph2 & H2 & L2 & A2).
      destruct (run_pair task p st1) as [st2 [e|[e|]]]; simpl in *.
      * exists (pre ++ n2), ph2. split; [rewrite H2, H1; now rewrite <- app_assoc|].
        split; [rewrite lifecycle_app, L1; exact L2|]. split; discriminate.
      * specialize (A2 e eq_refl). subst ph2.
        destruct (IH st2) as (n3 & ph3 & H3 & L3 & A3 & B3).
        exists ((pre ++ n2) ++ n3), ph3.
        split; [rewrite H3, H2, H1; now rewrite <- !app_assoc|].
        split; [rewrite !lifecycle_app, L1, L2; exact L3|]. split; assumption.
      * exists (pre ++ n2), ph2. split; [rewrite H2, H1; now rewrite <- app_assoc|].
        split; [rewrite lifecycle_app, L1; exact L2|]. split; discriminate.
    + specialize (F1 eq_refl). subst ph1.
      exists pre, Closed. split; [exact H1|]. split; [exact L1|]. split; reflexivity.
Qed.

Lemma tasks_loop_lifecycle plans st :
  exists new ph,
    log (fst (tasks_loop plans st)) = log st ++ new /\
    lifecycle Closed new = Some ph /\
    (snd (tasks_loop plans st) = inr Finished -> ph = Closed).
Proof.
  revert st. induction plans as [|tp rest IH]; intros st.
  - exists [], Closed. simpl. split; [now rewrite app_nil_r|]. split; reflexivity.
  - rewrite tasks_loop_cons.
    destruct (task_names (tp_task tp)) as [name|];
      [|exists [], Closed; simpl; split; [now rewrite app_nil_r|];
        split; [reflexivity|discriminate]].
    rewrite prompt_result.
    match goal with |- context [emit (Prompt ?s) st] =>
      set (pre := [Prompt s]); set (st1 := fst (emit (Prompt s) st))
    end.
    assert (H1 : log st1 = log st ++ pre) by reflexivity.
    assert (L1 : lifecycle Closed pre = Some Closed) by reflexivity.
    clearbody st1 pre.
    destruct (prompt_user_for_input (tp_prompt tp)).
    + destruct (robots_loop_lifecycle (tp_task tp) (tp_pairs tp) st1)
        as (n2 & ph2 & H2 & L2 & A2 & B2).
      destruct (robots_loop (tp_task tp) (tp_pairs tp) st1)
        as [st2 [e|[|task robot|]]]; simpl in *.
      * exists (pre ++ n2), ph2. split; [rewrite H2, H1; now rewrite <- app_assoc|].
        split; [rewrite lifecycle_app, L1; exact L2|discriminate].
      * specialize (A2 eq_refl). subst ph2.
        destruct (IH st2) as (n3 & ph3 & H3 & L3 & A3).
        exists ((pre ++ n2) ++ n3), ph3.
        split; [rewrite H3, H2, H1; now rewrite <- !app_assoc|].
        split; [rewrite !lifecycle_app, L1, L2; exact L3|exact A3].
      * exists (pre ++ n2), ph2. split; [rewrite H2, H1; now rewrite <- app_assoc|].
        split; [rewrite lifecycle_app, L1; exact L2|discriminate].
      * exists (pre ++ n2), ph2. split; [rewrite H2, H1; now rewrite <- app_assoc|].
        split; [rewrite lifecycle_app, L1; exact L2|discriminate].
    + exists pre, Closed. simpl. split; [exact H1|]. split; [exact L1|discriminate].
    + exists pre, Closed. simpl. split; [exact H1|]. split; [exact L1|discriminate].
Qed.

(** The calls of a whole session respect the life cycle of the
    simulation, whatever the operator and the collaborators do and
    wherever a call raises: a simulation is made only when none is open, so
    at most one is open at a time; between [suite.make] and the first
    [env.reset()] only the device is built, the viewer callbacks are
    registered and the header of the CSV file is written; nothing is
    stepped, rendered, checked or recorded on a simulation that was not
    reset or was closed; the operator is prompted only while no simulation
    is open; and when the session has gone through all pairs, the last
    simulation is closed. *)
Theorem session_respects_simulation_lifecycle argv plans :
  exists ph,
    lifecycle Closed (log (fst (tasks_loop plans (initial_state argv)))) = Some ph /\
    (snd (tasks_loop plans (initial_state argv)) = inr Finished -> ph = Closed).
Proof.
  destruct (tasks_loop_lifecycle plans (initial_state argv)) as (new & ph & Hl & L & A).
  exists ph. rewrite Hl. auto.
Qed.

(** ** Frame conditions that depend on what the success check answers *)

Section PreservesPair.

Variable R : State -> State -> Prop.
Variable P : Event -> Prop.
Variable good : CheckResult -> Prop.
Variables task robot : string.

Hypothesis R_refl : forall st, R st st.
Hypothesis R_trans : forall a b c, R a b -> R b c -> R a c.
Hypothesis R_cam : forall c, preserves R (set_cam_id c).
Hypothesis R_num : forall n, preserves R (set_num_cam n).
Hypothesis R_grasp : forall g, preserves R (set_last_grasp g).
Hypothesis R_emit : forall ev, P ev -> preserves R (emit ev).
Hypothesis R_edge : forall fault g, preserves R (grasp_edge fault g).
Hypothesis R_feedback : forall fault chk,
  good chk -> preserves R (task_feedback fault task robot chk).
Hypothesis P_all : forall ev, (forall r, ev <> SaveData r) -> P ev.

Lemma preserves_tick_good env t :
  good (t_check t) -> preserves R (tick task robot env t).
Proof.
  intros Hg. unfold tick.
  apply preserves_bind; [assumption|apply preserves_active_robot; assumption|intros _].
  apply preserves_bind;
    [assumption|apply preserves_input2action; assumption|intros [[a g]|]];
    [|apply preserves_ret; assumption].
  apply preserves_bind; [assumption|apply R_edge|intros _].
  apply preserves_bind;
    [assumption
    |apply (preserves_assemble_and_step R P); try assumption;
       intros; apply P_all; intros; discriminate
    |intros _].
  apply preserves_bind;
    [assumption
    |apply (preserves_safety_scan R P); try assumption;
       intros; apply P_all; intros; discriminate
    |intros _].
  apply preserves_bind; [assumption|apply R_feedback, Hg|intros _].
  apply preserves_bind;
    [assumption
    |apply (preserves_call R P); try assumption; apply P_all; intros; discriminate
    |intros _].
  apply preserves_ret; assumption.
Qed.

Lemma preserves_control_loop_good env script :
  Forall (fun t => good (t_check t)) script ->
  forall new_trial, preserves R (control_loop task robot env new_trial script).
Proof.
  induction 1 as [|t rest Ht _ IH]; intros new_trial; simpl;
    [apply preserves_ret; assumption|].
  apply preserves_bind; [assumption| |intros _].
  - apply preserves_if; [|apply preserves_ret; assumption].
    apply (preserves_trial_setup R P); try assumption;
      apply P_all; intros; discriminate.
  - apply preserves_bind;
      [assumption|apply preserves_tick_good; assumption|intros c]. apply IH.
Qed.

Lemma preserves_run_pair_good p :
  pp_robot p = robot ->
  Forall (fun t => good (t_check t)) (pp_ticks p) ->
  preserves R (run_pair task p).
Proof.
  intros Hr Hg st. unfold run_pair. rewrite Hr.
  pose proof (preserves_control_loop_good (pp_env p) _ Hg true st) as H.
  destruct (control_loop _ _ _ _ _ st) as [st1 [e|u]]; simpl in *; [|assumption].
  eapply R_trans; [exact H|].
  apply (preserves_bind R R_trans (call _ 427 EnvClose) (fun _ => ret (Aborted e)));
    [|intros _; apply preserves_ret; assumption].
  apply (preserves_call R P); try assumption. apply P_all; intros; discriminate.
Qed.

End PreservesPair.

(** ** What reaches the CSV file *)

Lemma same_csv_task_feedback fault task robot chk :
  trial_ended chk = false ->
  preserves same_csv (task_feedback fault task robot chk).
Proof.
  intros He. unfold task_feedback. rewrite He.
  repeat (apply preserves_if; frame).
Qed.

Lemma same_csv_grasp_edge fault g : preserves same_csv (grasp_edge fault g).
Proof. unfold grasp_edge, setattr, py_mod. frame. Qed.

(** No record without a reported end of trial: if the success check never
    reports [trial_ended] during a pair, the CSV file is after the pair
    what it was before, for every task, whatever the device does and
    wherever a call raises. *)
Theorem no_record_unless_trial_ended task p st :
  Forall (fun t => trial_ended (t_check t) = false) (pp_ticks p) ->
  csv (fst (run_pair task p st)) = csv st.
Proof.
  intros H.
  apply (preserves_run_pair_good same_csv (fun _ => True)
           (fun chk => trial_ended chk = false) task (pp_robot p));
    eauto with frame.
  - intros; apply same_csv_grasp_edge.
  - intros; apply same_csv_task_feedback; assumption.
Qed.

Lemma no_record_unless_trial_ended_witness :
  csv (fst (run_pair "DrawerPick"
              {| pp_robot := "Panda"; pp_env := demo_env;
                 pp_ticks := grasp_script [-1; 1; -1]%Q; pp_close_raises := false;
              pp_prompt := key_pressed; pp_setup_fault := None;
              pp_csv_exists := true |}
              (initial_state []))) = [].
Proof.
  apply (no_record_unless_trial_ended "DrawerPick"
           {| pp_robot := "Panda"; pp_env := demo_env;
              pp_ticks := grasp_script [-1; 1; -1]%Q; pp_close_raises := false;
              pp_prompt := key_pressed; pp_setup_fault := None;
              pp_csv_exists := true |}
           (initial_state [])).
  repeat constructor.
Defined.

Lemma rows_added_task_feedback fault task robot chk :
  preserves (rows_added task robot) (task_feedback fault task robot chk).
Proof.
  unfold task_feedback, save_data.
  repeat (apply preserves_if; frame).
Qed.

Lemma rows_added_grasp_edge task robot fault g :
  preserves (rows_added task robot) (grasp_edge fault g).
Proof. unfold grasp_edge, setattr, py_mod. frame. Qed.

(** The CSV file is append-only: a pair leaves the rows it finds as they
    are and in place, and every row it adds carries the subject name, the
    task and the robot of that pair, whatever the collaborators answer and
    wherever a call raises. *)
Theorem pair_only_appends_own_rows task p st :
  exists rows,
    csv (fst (run_pair task p st)) = csv st ++ rows /\
    Forall (fun r => r_subject_name r = subject_name /\ r_task r = task /\
                     r_robot r = pp_robot p) rows.
Proof.
  apply (preserves_run_pair_good (rows_added task (pp_robot p)) (fun _ => True)
           (fun _ => True) task (pp_robot p));
    eauto with frame.
  - intros; apply rows_added_grasp_edge.
  - intros; apply rows_added_task_feedback.
  - apply Forall_forall. intros t _. exact I.
Qed.

(** ** Exceptions *)

Lemma tick_without_end_writes_nothing task robot env t st :
  trial_ended (t_check t) = false ->
  csv (fst (tick task robot env t st)) = csv st.
Proof.
  intros H.
  apply (preserves_tick_good same_csv (fun _ => True)
           (fun chk => trial_ended chk = false) task robot);
    eauto with frame.
  - intros; apply same_csv_grasp_edge.
  - intros; apply same_csv_task_feedback; assumption.
Qed.

Lemma run_pair_without_end_writes_nothing task p st :
  Forall (fun t => trial_ended (t_check t) = false) (pp_ticks p) ->
  csv (fst (run_pair task p st)) = csv st.
Proof.
  intros H.
  apply (preserves_run_pair_good same_csv (fun _ => True)
           (fun chk => trial_ended chk = false) task (pp_robot p));
    eauto with frame.
  - intros; apply same_csv_grasp_edge.
  - intros; apply same_csv_task_feedback; assumption.
Qed.

(** C6, as the script has it.  Whatever is raised inside the [try] of a
    (task, robot) pair is caught: if [env.close()] returns, the simulation
    is closed, the handler writes no record and changes neither the CSV
    file nor [args], and the loop over the robots goes on with what
    follows, the prompt of the next pair.  No record is written for the
    trial that is under way: an iteration whose success check does not
    report the end of the trial leaves the CSV file alone, also when it
    raises, so that a pair aborted before any trial has ended leaves the
    file as it found it. *)
Theorem exception_closes_pair_and_session_goes_on task p rest st0 st_s st1 e :
  pair_setup task p st0 = (st_s, inr true) ->
  control_loop task (pp_robot p) (pp_env p) true (pp_ticks p) st_s = (st1, inl e) ->
  pp_close_raises p = false ->
  (exists st',
     run_pair task p st_s = (st', inr (Aborted e)) /\
     log st' = log st1 ++ [EnvClose] /\
     csv st' = csv st1 /\ args st' = args st1 /\
     (Forall (fun t => trial_ended (t_check t) = false) (pp_ticks p) ->
      csv st' = csv st_s) /\
     robots_loop task (p :: rest) st0 = robots_loop task rest st') /\
  (forall t s,
     trial_ended (t_check t) = false ->
     csv (fst (tick task (pp_robot p) (pp_env p) t s)) = csv s).
Proof.
  intros Hs H Hc. split; [|intros t s; apply tick_without_end_writes_nothing].
  assert (Hrun : run_pair task p st_s
                 = (fst (emit EnvClose st1), inr (Aborted e))).
  { unfold run_pair. rewrite H, Hc. reflexivity. }
  eexists. split; [exact Hrun|]. repeat (split; [reflexivity|]). split.
  - intros Hn. pose proof (run_pair_without_end_writes_nothing task p st_s Hn) as Hw.
    rewrite Hrun in Hw. exact Hw.
  - rewrite robots_loop_cons, Hs, Hrun. reflexivity.
Qed.

(** [env.step] raises in the first iteration of a trial that ends in no
    record; the simulation is closed and the next pair is prompted for and
    made. *)
Lemma exception_closes_pair_and_session_goes_on_witness :
  let st0 := initial_state [] in
  let p := {| pp_robot := "Panda"; pp_prompt := key_pressed; pp_setup_fault := None;
              pp_csv_exists := true; pp_env := demo_env;
              pp_ticks := pp_ticks aborted_with_raising_close;
              pp_close_raises := false |} in
  exists st',
    robots_loop "DrawerPick" [p; next_pair] st0
      = robots_loop "DrawerPick" [next_pair] st' /\
    csv st' = [] /\
    log (fst (robots_loop "DrawerPick" [p; next_pair] st0))
      = [ Prompt "Press any key to begin the next scenerio.";
          MakeEnv "DrawerPick" "Panda"; DeviceInit "Oculus" (Some true) (Some true);
          AddCallback "keypress"; AddCallback "keyrepeat";
          EnvReset; Render; StartControl; EnvClose;
          Prompt "Press any key to begin the next scenerio.";
          MakeEnv "DrawerPick" "PandaWrist";
          DeviceInit "Oculus" (Some true) (Some true);
          AddCallback "keypress"; AddCallback "keyrepeat";
          EnvReset; Render; StartControl;
          Step [1; 2; 0; 0; 0]%Q; CheckSuccess; Render ].
Proof.
  intros st0 p.
  destruct (exception_closes_pair_and_session_goes_on "DrawerPick" p [next_pair]
              st0 (fst (pair_setup "DrawerPick" p st0))
              (fst (control_loop "DrawerPick" "Panda" demo_env true (pp_ticks p)
                      (fst (pair_setup "DrawerPick" p st0))))
              (Raised 361))
    as [(st' & Hrun & Hlog & _ & _ & Hcsv & Hgo) _];
    [vm_compute; reflexivity|vm_compute; reflexivity|reflexivity|].
  exists st'. split; [exact Hgo|].
  split; [rewrite Hcsv; [vm_compute; reflexivity|repeat constructor]|].
  vm_compute. reflexivity.
Defined.

(** When [env.close()] raises in the handler, the exception leaves the
    loops: the session ends with it and the simulation is not closed. *)
Lemma raising_close_ends_session :
  ~ exception_is_survived "DrawerPick" aborted_with_raising_close [next_pair]
      (initial_state []).
Proof.
  intros H.
  destruct (H (fst (pair_setup "DrawerPick" aborted_with_raising_close
                      (initial_state [])))
              (fst (control_loop "DrawerPick" "Panda" demo_env true
                      (pp_ticks aborted_with_raising_close)
                      (fst (pair_setup "DrawerPick" aborted_with_raising_close
                              (initial_state [])))))
              (Raised 361)
              ltac:(vm_compute; reflexivity) ltac:(vm_compute; reflexivity))
    as [_ [s Hs]].
  vm_compute in Hs. discriminate.
Qed.

(** ** A cooperative run *)

Lemma active_robot_in_range env st config arm :
  args st !! "config" = Some config ->
  args st !! "arm" = Some arm ->
  robot_in_range env config arm ->
  exists i, active_robot env st = (st, inr i).
Proof.
  intros Hc Ha Hr. unfold active_robot, bind, getattr, index. rewrite Hc.
  unfold robot_in_range in Hr.
  destruct (py_eq config (VStr "bimanual")).
  - apply Nat.ltb_lt in Hr. rewrite Hr. eexists; reflexivity.
  - rewrite Ha. destruct (py_eq arm (VStr "left"));
      apply Nat.ltb_lt in Hr; rewrite Hr; eexists; reflexivity.
Qed.

Lemma input2action_returns t st config arm :
  args st !! "config" = Some config ->
  args st !! "arm" = Some arm ->
  t_fault t <> Some 320%nat ->
  input2action t st = (st, inr (t_input t)).
Proof.
  intros Hc Ha Hf. unfold input2action, bind, getattr. rewrite Ha, Hc.
  rewrite bool_decide_false by assumption. reflexivity.
Qed.

(** A reset request of the device ends the iteration at once: nothing is
    read but the robot, nothing is stepped, rendered or written, no local
    changes; the loop then starts a new trial with the next iteration. *)
Theorem reset_signal_steps_nothing task robot env t st config arm :
  args st !! "config" = Some config ->
  args st !! "arm" = Some arm ->
  robot_in_range env config arm ->
  t_input t = None ->
  t_fault t <> Some 320%nat ->
  tick task robot env t st = (st, inr Break) /\
  forall rest,
    control_loop task robot env false (t :: rest) st
      = control_loop task robot env true rest st.
Proof.
  intros Hc Ha Hr Hin Hf.
  assert (Ht : tick task robot env t st = (st, inr Break)).
  { unfold tick. destruct (active_robot_in_range env st config arm Hc Ha Hr) as [i Hi].
    rewrite (bind_ok _ _ _ _ _ Hi).
    rewrite (bind_ok _ _ _ _ _ (input2action_returns t st config arm Hc Ha Hf)).
    rewrite Hin. reflexivity. }
  split; [exact Ht|]. intros rest. simpl. unfold bind at 1. unfold ret at 1.
  rewrite (bind_ok _ _ _ _ _ Ht). reflexivity.
Qed.

Lemma reset_signal_steps_nothing_witness :
  tick "Bookshelf" "Panda" demo_env reset_tick (initial_state [])
    = (initial_state [], inr Break).
Proof.
  apply (reset_signal_steps_nothing "Bookshelf" "Panda" demo_env reset_tick
           (initial_state []) (VStr "single-arm-opposed") (VStr "right")).
  - vm_compute; reflexivity.
  - vm_compute; reflexivity.
  - unfold robot_in_range. simpl. lia.
  - reflexivity.
  - discriminate.
Defined.

Lemma assemble_and_step_returns env action st arm :
  args st !! "arm" = Some arm ->
  exists st', assemble_and_step None env action st = (st', inr tt) /\
              args st' = args st /\ csv st' = csv st /\
              last_grasp st' = last_grasp st.
Proof.
  intros Ha. rewrite assemble_and_step_unfold, assemble_unfold. simpl. rewrite Ha.
  destruct (0 <? _); [|destruct (_ <? 0)];
    [destruct (py_eq arm (VStr "right")); [|destruct (py_eq arm (VStr "left"))]| |];
    eexists; (split; [reflexivity|simpl; auto]).
Qed.

Lemma task_feedback_returns task robot chk st :
  exists st', task_feedback None task robot chk st = (st', inr tt) /\
              args st' = args st /\
              csv st' = csv st ++
                (if existsb (String.eqb task) scored_tasks && trial_ended chk
                 then [record_of task robot chk] else []).
Proof.
  unfold task_feedback.
  destruct (String.eqb task "ConstrainedReorient") eqn:E1.
  { apply String.eqb_eq in E1. subst task. simpl.
    destruct (trial_ended chk); simpl; [destruct (success chk =? 2)|
      destruct (success chk =? 1)];
      eexists; (split; [reflexivity|simpl; rewrite ?app_nil_r; auto]). }
  destruct (String.eqb task "Bookshelf") eqn:E2.
  { apply String.eqb_eq in E2. subst task. simpl.
    destruct (trial_ended chk); simpl; [destruct (success chk =? 0)|];
      eexists; (split; [reflexivity|simpl; rewrite ?app_nil_r; auto]). }
  destruct (String.eqb task "DrawerPick") eqn:E3.
  { apply String.eqb_eq in E3. subst task. simpl.
    destruct (trial_ended chk); simpl; [destruct (success chk =? 0)|];
      eexists; (split; [reflexivity|simpl; rewrite ?app_nil_r; auto]). }
  simpl. rewrite E1, E2, E3. simpl.
  destruct (String.eqb task "Train");
    eexists; (split; [reflexivity|simpl; rewrite ?app_nil_r; auto]).
Qed.

Lemma tick_cooperative task robot env t st config arm :
  args st !! "config" = Some config ->
  args st !! "arm" = Some arm ->
  robot_in_range env config arm ->
  t_fault t = None ->
  calm_tick no_press t ->
  exists st',
    tick task robot env t st
      = (st', inr (match t_input t with None => Break | Some _ => Continue end)) /\
    args st' = args st /\
    csv st' = csv st ++ tick_rows task robot t.
Proof.
  intros Hc Ha Hr Hf Hcalm. unfold tick, tick_rows.
  destruct (active_robot_in_range env st config arm Hc Ha Hr) as [i Hi].
  rewrite (bind_ok _ _ _ _ _ Hi).
  rewrite (bind_ok _ _ _ _ _ (input2action_returns t st config arm Hc Ha
                                ltac:(rewrite Hf; discriminate))).
  destruct (t_input t) as [[a g]|] eqn:Hin;
    [|exists st; rewrite app_nil_r; auto].
  rewrite Hf.
  assert (Hg : grasp_edge None g st = set_last_grasp g st).
  { apply grasp_edge_no_edge. rewrite (Hcalm a g Hin). apply andb_false_r. }
  rewrite (bind_ok _ _ _ (fst (set_last_grasp g st)) tt Hg).
  destruct (assemble_and_step_returns env a (fst (set_last_grasp g st)) arm Ha)
    as (s2 & H2 & A2 & C2 & _).
  rewrite (bind_ok _ _ _ _ _ H2).
  destruct (safety_scan_log None env links2check (t_contacts t) s2
              ltac:(discriminate)) as (s3 & H3 & _ & C3 & A3).
  rewrite (bind_ok _ _ _ _ _ H3).
  destruct (task_feedback_returns task robot (t_check t) s3) as (s4 & H4 & A4 & C4).
  rewrite (bind_ok _ _ _ _ _ H4).
  eexists. split; [reflexivity|]. simpl in *.
  split; [congruence|]. rewrite C4, C3, C2. reflexivity.
Qed.

Lemma control_loop_cooperative task robot env script config arm :
  cooperative script ->
  forall new_trial st,
    args st !! "config" = Some config ->
    args st !! "arm" = Some arm ->
    robot_in_range env config arm ->
    exists st',
      control_loop task robot env new_trial script st = (st', inr tt) /\
      args st' = args st /\
      csv st' = csv st ++ flat_map (tick_rows task robot) script.
Proof.
  induction 1 as [|t rest [Hf Hcalm] _ IH]; intros new_trial st Hc Ha Hr; simpl.
  - exists st. rewrite app_nil_r. auto.
  - assert (Hs : exists s1,
              (if new_trial then trial_setup (t_fault t) env else ret tt) st
                = (s1, inr tt) /\ args s1 = args st /\ csv s1 = csv st).
    { destruct new_trial; [rewrite Hf|]; eexists; (split; [reflexivity|auto]). }
    destruct Hs as (s1 & H1 & A1 & C1). rewrite (bind_ok _ _ _ _ _ H1).
    destruct (tick_cooperative task robot env t s1 config arm)
      as (s2 & H2 & A2 & C2); try assumption; try (rewrite A1; assumption).
    rewrite (bind_ok _ _ _ _ _ H2).
    destruct (IH (match t_input t with Some _ => false | None => true end) s2)
      as (s3 & H3 & A3 & C3); try assumption; try (rewrite A2, A1; assumption).
    exists s3. split.
    + rewrite <- H3. destruct (t_input t); reflexivity.
    + split; [congruence|]. rewrite C3, C2, C1. now rewrite <- app_assoc.
Qed.

(** When no call raises and the grasp input is not pressed, the loop never
    stops by itself, and the CSV file gains exactly one row for every
    iteration in which the success check of a scored task reports
    [trial_ended], in the order of the iterations: also when the check
    reports the end of the same trial again, since nothing resets the
    simulation in between.  Iterations of the training task, iterations
    without a reported end and reset requests add no row. *)
Theorem one_row_per_reported_end task robot env script new_trial st config arm :
  cooperative script ->
  args st !! "config" = Some config ->
  args st !! "arm" = Some arm ->
  robot_in_range env config arm ->
  exists st',
    control_loop task robot env new_trial script st = (st', inr tt) /\
    csv st' = csv st ++ flat_map (tick_rows task robot) script.
Proof.
  intros Hco Hc Ha Hr.
  destruct (control_loop_cooperative task robot env script config arm Hco
              new_trial st Hc Ha Hr) as (st' & H & _ & C).
  exists st'. auto.
Qed.

(** Two reports of the end of one trial give two rows. *)
Lemma one_row_per_reported_end_witness :
  exists st',
    control_loop "DrawerPick" "Panda" demo_env true twice_ended (initial_state [])
      = (st', inr tt) /\
    csv st' = [record_of "DrawerPick" "Panda" ended_check;
               record_of "DrawerPick" "Panda" ended_check].
Proof.
  apply (one_row_per_reported_end "DrawerPick" "Panda" demo_env twice_ended true
           (initial_state []) (VStr "single-arm-opposed") (VStr "right")).
  - repeat constructor; intros a g H; injection H as _ <-; reflexivity.
  - vm_compute; reflexivity.
  - vm_compute; reflexivity.
  - unfold robot_in_range. simpl. lia.
Defined.

(** ** A session on the left arm *)

Lemma idle_refl st : idle st st.
Proof. split; [reflexivity|apply logs_refl]. Qed.

Lemma idle_trans a b c : idle a b -> idle b c -> idle a c.
Proof.
  intros [A1 L1] [A2 L2]. split.
  - intros name Hn. rewrite (A2 name Hn). apply A1, Hn.
  - eapply logs_trans; eassumption.
Qed.

Lemma idle_emit ev : (forall a, ev <> Step a) -> preserves idle (emit ev).
Proof.
  intros H st. split; [reflexivity|].
  apply (logs_emit (fun ev => forall a, ev <> Step a) ev H).
Qed.

Lemma idle_config : preserves idle (setattr "config" VNone).
Proof.
  intros st. split.
  - intros name Hn. simpl. now rewrite lookup_insert_ne by congruence.
  - exists []. split; [simpl; now rewrite app_nil_r|constructor].
Qed.

Lemma idle_same_args st st' :
  args st' = args st -> logs (fun ev => forall a, ev <> Step a) st st' -> idle st st'.
Proof. intros A L. split; [intros name _; now rewrite A|exact L]. Qed.

Lemma idle_attributes st st' : idle st st' -> setup_attributes st -> setup_attributes st'.
Proof.
  intros [A _] (H1 & H2 & H3 & H4).
  repeat split; rewrite A by discriminate; assumption.
Qed.

Lemma idle_pair_setup task p : preserves idle (pair_setup task p).
Proof.
  apply (preserves_pair_setup idle (fun ev => forall a, ev <> Step a));
    first [ apply idle_refl | apply idle_trans | apply idle_config | apply idle_emit
          | intros; discriminate ].
Qed.

(** When the prompt has returned, [args.config] is [None]. *)
Lemma pair_setup_config task p st s :
  pair_setup task p st = (s, inr true) -> args s !! "config" = Some VNone.
Proof.
  intros E. unfold pair_setup in E. unfold bind at 1 in E. rewrite prompt_result in E.
  destruct (prompt_user_for_input (pp_prompt p)); [|discriminate E|discriminate E].
  match type of E with (setattr _ _ ;; ?m) ?s0 = _ =>
    rewrite (bind_ok (setattr "config" VNone) (fun _ => m) s0
               (fst (setattr "config" VNone s0)) tt eq_refl) in E;
    assert (H : preserves (fun a b => args b = args a) m);
    [|specialize (H (fst (setattr "config" VNone s0))); rewrite E in H; simpl in H;
      rewrite H; apply lookup_insert_eq]
  end.
  apply preserves_bind; [congruence| |intros _].
  - unfold call. destruct (bool_decide _); intros st0; reflexivity.
  - apply preserves_bind; [congruence| |intros _ st0; reflexivity].
    apply (preserves_device_and_header _ (fun _ => True));
      first [ reflexivity | congruence | intros; exact I | intros ev _ st0; reflexivity ].
Qed.

Lemma may_raise_without_fault line : may_raise None line = ret tt.
Proof. unfold may_raise. now rewrite bool_decide_eq_false_2 by discriminate. Qed.

(** With its prompt acknowledged, no fault and the attributes that
    [parse_args] creates, what precedes the [try] goes through. *)
Lemma pair_setup_goes_through task p st :
  acknowledged (pp_prompt p) -> pp_setup_fault p = None -> setup_attributes st ->
  snd (pair_setup task p st) = inr true.
Proof.
  intros [key Hk] Hf ([dir Hdir] & [dev Hdev] & [ps Hps] & [rs Hrs]).
  unfold pair_setup, device_and_header, make_device, prompt. rewrite Hk, Hf.
  rewrite !call_None, !may_raise_without_fault.
  unfold bind, ret, emit, setattr, set_args, gets, getattr, bind. simpl.
  repeat (simpl; rewrite ?lookup_insert_ne by discriminate;
          first [rewrite Hdir|rewrite Hdev]).
  simpl.
  destruct (py_eq dev (VStr "keyboard"));
    [|destruct (py_eq dev (VStr "spacemouse"));
      [|destruct (py_eq dev (VStr "oculus"))]];
    repeat (simpl; rewrite ?lookup_insert_ne by discriminate;
            first [rewrite Hps|rewrite Hrs]);
    simpl; destruct (pp_csv_exists p); reflexivity.
Qed.

(** A pair on the left arm with a single robot: whatever its script and
    whether [env.close()] raises or not. *)
Lemma left_arm_pair_idle task p st config :
  args st !! "config" = Some config ->
  config <> VStr "bimanual" ->
  args st !! "arm" = Some (VStr "left") ->
  (robots (pp_env p) <= 1)%nat ->
  idle st (fst (run_pair task p st)).
Proof.
  intros Hc Hb Ha Hr.
  destruct (pp_ticks p) as [|t rest] eqn:Hticks.
  - unfold run_pair. rewrite Hticks. simpl. apply idle_refl.
  - destruct (pp_close_raises p) eqn:Hcl.
    + set (P := fun ev : Event => forall a, ev <> Step a).
      unfold run_pair. rewrite Hticks, Hcl. simpl. unfold bind at 1.
      assert (Hsetup : idle st (fst (trial_setup (t_fault t) (pp_env p) st)) /\
                       args (fst (trial_setup (t_fault t) (pp_env p) st)) = args st).
      { apply (preserves_trial_setup (fun a b => idle a b /\ args b = args a) P).
        - intros s. split; [apply idle_refl|reflexivity].
        - intros a b c [I1 A1] [I2 A2]. split; [eapply idle_trans; eassumption|congruence].
        - intros c s. split; [|reflexivity]. apply idle_same_args; [reflexivity|].
          exists []. split; [simpl; now rewrite app_nil_r|constructor].
        - intros c s. split; [|reflexivity]. apply idle_same_args; [reflexivity|].
          exists []. split; [simpl; now rewrite app_nil_r|constructor].
        - intros c s. split; [|reflexivity]. apply idle_same_args; [reflexivity|].
          exists []. split; [simpl; now rewrite app_nil_r|constructor].
        - intros ev Hev s. split; [apply idle_emit, Hev|reflexivity].
        - intros a; discriminate.
        - intros a; discriminate.
        - intros a; discriminate. }
      destruct (trial_setup (t_fault t) (pp_env p) st) as [s1 [e|[]]];
        simpl in Hsetup; destruct Hsetup as [I1 A1].
      * unfold bind, call. simpl. exact I1.
      * unfold bind at 1.
        assert (Htick : tick task (pp_robot p) (pp_env p) t s1 = (s1, inl IndexError)).
        { unfold tick.
          apply bind_err, (active_robot_out_of_range _ _ config); rewrite ?A1; assumption. }
        rewrite Htick. unfold bind, call. simpl. exact I1.
    + destruct (left_arm_pair_aborts task p st config Hc Hb Ha Hr
                  ltac:(rewrite Hticks; discriminate) Hcl)
        as (_ & st' & e & H & A & L).
      rewrite H. simpl. apply idle_same_args; assumption.
Qed.

Lemma robots_loop_left_arm task pairs :
  Forall (fun p => (robots (pp_env p) <= 1)%nat) pairs ->
  forall st, args st !! "arm" = Some (VStr "left") ->
  idle st (fst (robots_loop task pairs st)) /\
  (Forall pair_goes_through pairs -> setup_attributes st ->
   snd (robots_loop task pairs st) = inr Finished).
Proof.
  induction 1 as [|p rest Hr _ IH]; intros st Ha.
  - split; [apply idle_refl|reflexivity].
  - rewrite robots_loop_cons.
    pose proof (idle_pair_setup task p st) as I1.
    pose proof (pair_setup_goes_through task p st) as G1.
    destruct (pair_setup task p st) as [s1 [e|[|]]] eqn:E1; simpl in I1, G1.
    + split; [exact I1|]. intros Hg Hs. apply Forall_cons_1 in Hg as [(Hk & Hf & _) _].
      discriminate (G1 Hk Hf Hs).
    + assert (Hc1 : args s1 !! "config" = Some VNone)
        by exact (pair_setup_config task p st s1 E1).
      assert (Ha1 : args s1 !! "arm" = Some (VStr "left"))
        by (destruct I1 as [A1 _]; rewrite A1 by discriminate; exact Ha).
      pose proof (left_arm_pair_idle task p s1 VNone Hc1 ltac:(discriminate) Ha1 Hr)
        as I2.
      pose proof (left_arm_pair_aborts task p s1 VNone Hc1 ltac:(discriminate) Ha1 Hr)
        as G2.
      destruct (run_pair task p s1) as [s2 [e|[e|]]] eqn:E2; simpl in I2.
      * split; [eapply idle_trans; eassumption|]. intros Hg Hs.
        apply Forall_cons_1 in Hg as [(_ & _ & Hne & Hcl) _].
        destruct (G2 Hne Hcl) as (_ & x & y & Hx & _). discriminate Hx.
      * assert (Ha2 : args s2 !! "arm" = Some (VStr "left"))
          by (destruct I2 as [A2 _]; rewrite A2 by discriminate; exact Ha1).
        destruct (IH s2 Ha2) as [I3 G3].
        split; [eapply idle_trans; [exact I1|eapply idle_trans; eassumption]|].
        intros Hg Hs. apply Forall_cons_1 in Hg as [_ Hg].
        apply G3; [exact Hg|].
        eapply idle_attributes; [|exact Hs]. eapply idle_trans; eassumption.
      * split; [eapply idle_trans; eassumption|]. intros Hg Hs.
        apply Forall_cons_1 in Hg as [(_ & _ & Hne & Hcl) _].
        destruct (G2 Hne Hcl) as (_ & x & y & Hx & _). discriminate Hx.
    + split; [exact I1|]. intros Hg Hs. apply Forall_cons_1 in Hg as [(Hk & Hf & _) _].
      discriminate (G1 Hk Hf Hs).
Qed.

(** Once the left arm is selected (by [--arm left], or by a switch on a
    grasp press), a session whose environments have a single robot takes
    no simulation step any more and stays on the left arm, whatever
    happens at the prompts, in the set-up of a pair and in the calls of
    the loop.  If moreover every prompt is acknowledged, nothing raises
    before a [try], every loop is entered and every [env.close()] returns,
    then every pair is aborted at its first iteration and the session runs
    through all of them to its end. *)
Theorem left_arm_session_never_steps plans st :
  single_robot plans ->
  args st !! "arm" = Some (VStr "left") ->
  args (fst (tasks_loop plans st)) !! "arm" = Some (VStr "left") /\
  logs (fun ev => forall a, ev <> Step a) st (fst (tasks_loop plans st)) /\
  (session_goes_through plans -> setup_attributes st ->
   snd (tasks_loop plans st) = inr Finished).
Proof.
  intros H Ha.
  enough (G : idle st (fst (tasks_loop plans st)) /\
              (session_goes_through plans -> setup_attributes st ->
               snd (tasks_loop plans st) = inr Finished)).
  { destruct G as [[A L] G]. split; [rewrite A by discriminate; exact Ha|].
    split; [exact L|exact G]. }
  revert st Ha. induction H as [|tp rest Htp _ IH]; intros st Ha.
  - split; [apply idle_refl|reflexivity].
  - rewrite tasks_loop_cons.
    destruct (task_names (tp_task tp)) as [name|] eqn:En.
    + set (text := ("The next task is to " ++ name ++
                    ". Check out the task summary, then press any key to continue.")%string).
      pose proof (idle_emit (Prompt text) ltac:(intros a; discriminate) st) as I1.
      rewrite prompt_result.
      set (s1 := fst (emit (Prompt text) st)) in *. clearbody s1.
      assert (Ha1 : args s1 !! "arm" = Some (VStr "left"))
        by (destruct I1 as [A1 _]; rewrite A1 by discriminate; exact Ha).
      destruct (prompt_user_for_input (tp_prompt tp)) as [key| |] eqn:Ep.
      * destruct (robots_loop_left_arm (tp_task tp) (tp_pairs tp) Htp s1 Ha1) as [I2 G2].
        destruct (robots_loop (tp_task tp) (tp_pairs tp) s1) as [s2 r] eqn:E2.
        simpl in I2, G2.
        assert (Ha2 : args s2 !! "arm" = Some (VStr "left"))
          by (destruct I2 as [A2 _]; rewrite A2 by discriminate; exact Ha1).
        destruct (IH s2 Ha2) as [I3 G3].
        assert (I12 : idle st s2) by (eapply idle_trans; eassumption).
        destruct r as [e|[|task robot|]]; simpl.
        -- split; [exact I12|]. intros Hg Hs. apply Forall_cons_1 in Hg as [(_ & _ & Hp) _].
           discriminate (G2 Hp (idle_attributes _ _ I1 Hs)).
        -- split; [eapply idle_trans; eassumption|]. intros Hg Hs.
           apply Forall_cons_1 in Hg as [_ Hg].
           apply G3; [exact Hg|]. eapply idle_attributes; eassumption.
        -- split; [exact I12|]. intros Hg Hs. apply Forall_cons_1 in Hg as [(_ & _ & Hp) _].
           discriminate (G2 Hp (idle_attributes _ _ I1 Hs)).
        -- split; [exact I12|]. intros Hg Hs. apply Forall_cons_1 in Hg as [(_ & _ & Hp) _].
           discriminate (G2 Hp (idle_attributes _ _ I1 Hs)).
      * split; [exact I1|]. intros Hg _. apply Forall_cons_1 in Hg as [(_ & [k Hk] & _) _].
        congruence.
      * split; [exact I1|]. intros Hg _. apply Forall_cons_1 in Hg as [(_ & [k Hk] & _) _].
        congruence.
    + split; [apply idle_refl|]. intros Hg _.
      apply Forall_cons_1 in Hg as [([x Hx] & _) _]. congruence.
Qed.

Lemma left_arm_session_never_steps_witness :
  let one_robot := {| action_dim := 7; robots := 1; camera_names := ["cabinetview"];
                      geom_id2name := fun _ => None |} in
  let plans :=
    [ {| tp_task := "Train"; tp_prompt := key_pressed;
         tp_pairs := [ {| pp_robot := "Panda"; pp_prompt := key_pressed;
                          pp_setup_fault := None; pp_csv_exists := false;
                          pp_env := one_robot;
                          pp_ticks := grasp_script [-1]%Q;
                          pp_close_raises := false |} ] |};
      {| tp_task := "DrawerPick"; tp_prompt := key_pressed;
         tp_pairs := [ {| pp_robot := "PandaWrist"; pp_prompt := key_pressed;
                          pp_setup_fault := None; pp_csv_exists := true;
                          pp_env := one_robot;
                          pp_ticks := [plain_tick [1;2]%Q (-1)%Q ended_check];
                          pp_close_raises := false |} ] |} ] in
  let st := initial_state [("--arm", VStr "left")] in
  args (fst (tasks_loop plans st)) !! "arm" = Some (VStr "left") /\
  logs (fun ev => forall a, ev <> Step a) st (fst (tasks_loop plans st)) /\
  snd (tasks_loop plans st) = inr Finished.
Proof.
  intros one_robot plans st.
  destruct (left_arm_session_never_steps plans st) as (A & L & G).
  - repeat constructor.
  - vm_compute; reflexivity.
  - split; [exact A|]. split; [exact L|]. apply G.
    + repeat constructor; try (eexists; reflexivity); discriminate.
    + repeat split; eexists; vm_compute; reflexivity.
Defined.

(** ** The namespace of the command line *)

Lemma given_last (argv : list (string * PyVal)) typed v o :
  Argparse.resolve typed = Some o ->
  Argparse.given (argv ++ [(typed, v)]) o = Some v.
Proof.
  intros Hr. induction argv as [|[t w] r IH]; simpl.
  - rewrite Hr, String.eqb_refl. reflexivity.
  - rewrite IH. reflexivity.
Qed.

(** For a command line that argparse accepts, [args] has the attributes
    [config] and [arm] with the value given on the command line or else
    the default ("single-arm-opposed", "right"), and the flag
    [switch_on_grasp], [True] exactly when its option is given.  It has no
    attribute [toggle_camera_on_grasp]: the option of line 186 is spelled
    with blanks, and its flag is stored under a name with blanks.  [--arm]
    is not checked against "right" and "left".  An option may be
    abbreviated ([--switch]), and of several occurrences of an option the
    last one counts. *)
Theorem namespace_of_command_line (argv : list (string * PyVal)) :
  Argparse.accepted argv = true ->
  Argparse.parse_args argv !! "config"
    = Some (default (VStr "single-arm-opposed") (Argparse.given argv "--config")) /\
  Argparse.parse_args argv !! "arm"
    = Some (default (VStr "right") (Argparse.given argv "--arm")) /\
  Argparse.parse_args argv !! "switch_on_grasp"
    = Some (VBool (bool_decide (is_Some (Argparse.given argv "--switch-on-grasp")))) /\
  Argparse.parse_args argv !! "toggle_camera_on_grasp" = None /\
  Argparse.parse_args argv !! "toggle_  camera_on_grasp"
    = Some (VBool (bool_decide
                     (is_Some (Argparse.given argv "--toggle-  camera-on-grasp")))) /\
  Argparse.resolve "--switch" = Some "--switch-on-grasp" /\
  (forall typed v o,
     Argparse.resolve typed = Some o ->
     Argparse.given (argv ++ [(typed, v)]) o = Some v).
Proof.
  intros _.
  destruct (parse_args_lookup argv) as (H1 & H2 & H3 & H4).
  split; [exact H1|]. split; [exact H2|]. split; [exact H3|]. split; [exact H4|].
  split; [|split; [reflexivity|apply given_last]].
  clear. unfold Argparse.parse_args, Argparse.stored. simpl.
  repeat (first [ rewrite lookup_insert_eq | rewrite lookup_insert_ne by discriminate ]).
  destruct (Argparse.given argv "--toggle-  camera-on-grasp"); reflexivity.
Qed.

(** [--arm] twice and an abbreviated [--switch-on-grasp]. *)
Lemma namespace_of_command_line_witness :
  let argv := [("--arm", VStr "left"); ("--switch", VBool true);
               ("--arm", VStr "both")] in
  Argparse.parse_args argv !! "arm" = Some (VStr "both") /\
  Argparse.parse_args argv !! "switch_on_grasp" = Some (VBool true) /\
  Argparse.parse_args argv !! "toggle_camera_on_grasp" = None.
Proof.
  intros argv.
  destruct (namespace_of_command_line argv eq_refl) as (_ & Ha & Hs & Ht & _).
  split; [exact Ha|]. split; [exact Hs|exact Ht].
Defined.
